(** * trackfast: the edge gate (middleware.ts) and the tracking route
      (src/app/api/track/route.ts)

    A shallow embedding of the two request handlers and of the health
    endpoint.  Asynchronous code is modelled by its settled results: a
    handler is a function from what it reads (the request, [process.env],
    the clock, what each [fetch] settles to) to what it produces (the
    response and the outbound requests it issued).  Writes to the console
    are not part of the modelled result. *)

From stdpp Require Import gmap strings list pretty.
From Stdlib Require Import Ascii.

Set Warnings "-register-all".

(** ** JavaScript values, as far as the handlers look at them *)

(** A value as [JSON.parse] produces it, plus [undefined].  The handlers
    never compute with numbers, they only test them for truthiness; a
    number is carried as an integer.  A string is its sequence of
    characters. *)
Inductive jsval : Type :=
  | JUndefined
  | JNull
  | JBool (b : bool)
  | JNum (n : Z)
  | JStr (s : string)
  | JArr (items : list jsval)
  | JObj (fields : gmap string jsval).

(** A thrown [Error]; the handlers read nothing but [error.message]. *)
Record js_error : Type := JsError { message : string }.

(** A computation that may throw. *)
Definition throws (A : Type) : Type := js_error + A.

Definition throw {A} (e : js_error) : throws A := inl e.
#[global] Instance throws_ret : MRet throws := λ A a, inr a.
#[global] Instance throws_bind : MBind throws := λ A B k m,
  match m with
  | inl e => inl e
  | inr a => k a
  end.
Definition try_catch {A} (m : throws A) (handler : js_error → A) : A :=
  match m with
  | inl e => handler e
  | inr a => a
  end.

(** [!!v] *)
Definition truthy (v : jsval) : bool :=
  match v with
  | JUndefined | JNull => false
  | JBool b => b
  | JNum n => negb (n =? 0)%Z
  | JStr s => negb (String.eqb s "")
  | JArr _ | JObj _ => true
  end.

(** [v.k] for the member names the handlers read ([event], [properties],
    [userId]): none of them is an index or a built-in member, so only an
    object can hold them; reading a member of [null] or [undefined]
    throws a TypeError. *)
Definition get_member (v : jsval) (k : string) : throws jsval :=
  match v with
  | JUndefined | JNull =>
      throw (JsError ("Cannot read properties of null (reading '" +:+ k +:+ "')"))
  | JObj fields => mret (default JUndefined (fields !! k))
  | _ => mret JUndefined
  end.

(** [v?.k] *)
Definition get_member_opt (v : jsval) (k : string) : jsval :=
  match get_member v k with
  | inl _ => JUndefined
  | inr x => x
  end.

(** [a || b] *)
Definition js_or (a b : jsval) : jsval := if truthy a then a else b.

Fixpoint chars_of (s : string) : list string :=
  match s with
  | EmptyString => []
  | String c rest => String c EmptyString :: chars_of rest
  end.

Definition indexed {A} (l : list A) : gmap string A :=
  list_to_map (imap (λ i x, (pretty i, x)) l).

(** The own enumerable properties an object spread [{...v}] copies:
    the fields of an object, the elements of an array and the characters
    of a string under their indices, nothing for the other values. *)
Definition own_properties (v : jsval) : gmap string jsval :=
  match v with
  | JObj fields => fields
  | JArr items => indexed items
  | JStr s => indexed (JStr <$> chars_of s)
  | _ => ∅
  end.

(** ** The environment *)

(** [process.env]: each variable is unset or holds a string. *)
Definition environment : Type := gmap string string.

(** [process.env.NAME] used as a condition: set and not empty. *)
Definition env_truthy (env : environment) (name : string) : bool :=
  match env !! name with
  | Some value => negb (String.eqb value "")
  | None => false
  end.

(** [process.env.NAME] spliced into a string or a body. *)
Definition env_text (env : environment) (name : string) : string :=
  default "undefined" (env !! name).

Definition is_development (env : environment) : bool :=
  bool_decide (env !! "NODE_ENV" = Some "development").

(** ** Requests and responses *)

(** Header names are kept in lower case, as [Headers] normalises them. *)
Record request : Type := Request {
  url : string;
  pathname : string;
  method : string;
  headers : gmap string string;
  body : string;
}.

Inductive response_body : Type :=
  (* middleware *)
  | InvalidJson
  | InvalidEventName
  | UnknownEvent (error details : string) (availableEvents : list string)
  | ValidationFailed (details : string) (event : string) (properties : jsval)
  | InternalValidationError
  (* route *)
  | EventNameRequired
  | Tracked (event : string) (validated : bool)
            (attempted successful failed : nat) (timestamp : string)
  | InternalServerError (details : option string)
  | Health (posthog ga4 : bool) (timestamp : string).

Record response : Type := Response {
  status : Z;
  json : response_body;
}.

(** What the middleware hands back to the framework: a response of its
    own, or [NextResponse.next({ request })]. *)
Inductive gate_result : Type :=
  | Respond (r : response)
  | Next (forwarded : request).

(** ** The schema module

    [eventSchemas] and [validateEvent] are exported by the generated
    module src/lib/event-schemas.ts, which is not among the sources at
    hand.  Both are parameters of the gate: the registry is an object
    literal, given by its own keys in the order [Object.keys] lists them;
    the validator returns or throws an [Error]. *)

Definition schema_registry : Type := list string.

Definition Object_keys (schemas : schema_registry) : list string := schemas.

(** The members every ordinary object inherits from [Object.prototype]. *)
Definition Object_prototype_members : list string :=
  [ "constructor"; "__defineGetter__"; "__defineSetter__"; "hasOwnProperty";
    "__lookupGetter__"; "__lookupSetter__"; "isPrototypeOf";
    "propertyIsEnumerable"; "toString"; "valueOf"; "__proto__";
    "toLocaleString" ].

(** [name in schemas]: an own key, or a member found along the prototype
    chain. *)
Definition js_in (name : string) (schemas : schema_registry) : bool :=
  bool_decide (name ∈ Object_keys schemas)
  || bool_decide (name ∈ Object_prototype_members).

(** [typeof v === 'string'], with the string when it is one. *)
Definition as_string (v : jsval) : option string :=
  match v with
  | JStr s => Some s
  | _ => None
  end.

(** [!event || typeof event !== 'string'] fails exactly on a string that
    is not empty. *)
Definition event_name (v : jsval) : option string :=
  if truthy v then as_string v else None.

(** ** The edge gate: middleware.ts *)

Definition validated_header : string := "x-trackfast-validated".
Definition event_header : string := "x-trackfast-event".
Definition timestamp_header : string := "x-trackfast-timestamp".

Section Gate.

Variable JSON_parse : string → throws jsval.
Variable eventSchemas : schema_registry.
Variable validateEvent : string → jsval → throws unit.

(** The statements inside the outer [try] of
    [validateTrackingRequest]; [now] is what [new Date().toISOString()]
    reads.  The module imports [NextRequest] with [import type], which is
    erased when the module is compiled: once the headers are set,
    evaluating [new NextRequest(...)] throws a ReferenceError, and the
    [NextResponse.next] after it is not reached. *)
Definition validateTrackingRequest_try (request : request) (now : string)
    : throws gate_result :=
  let body := body request in
  match JSON_parse body with
  | inl parseError => mret (Respond (Response 400 InvalidJson))
  | inr payload =>
      event ← get_member payload "event";
      match event_name event with
      | None => mret (Respond (Response 400 InvalidEventName))
      | Some event =>
          if negb (js_in event eventSchemas) then
            mret (Respond (Response 400
              (UnknownEvent
                 ("Unknown event: " +:+ event)
                 ("Available events: "
                    +:+ String.concat ", " (Object_keys eventSchemas))
                 (Object_keys eventSchemas))))
          else
            properties ← get_member payload "properties";
            match validateEvent event (js_or properties (JObj ∅)) with
            | inl validationError =>
                mret (Respond (Response 400
                  (ValidationFailed (message validationError)
                                    event properties)))
            | inr _ =>
                let requestHeaders :=
                  <[timestamp_header := now]>
                    (<[event_header := event]>
                       (<[validated_header := "true"]> (headers request))) in
                validatedRequest ←
                  throw (JsError "NextRequest is not defined");
                mret (Next validatedRequest)
            end
      end
  end.

Definition validateTrackingRequest (request : request) (now : string)
    : gate_result :=
  try_catch (validateTrackingRequest_try request now)
    (λ error, Respond (Response 500 InternalValidationError)).

Definition middleware (request : request) (now : string) : gate_result :=
  if String.eqb (pathname request) "/api/track"
  then validateTrackingRequest request now
  else Next request.

End Gate.

(** ** The tracking route: src/app/api/track/route.ts *)

Record ga4_event : Type := Ga4Event {
  name : string;
  parameters : gmap string jsval;
}.

(** The value handed to [JSON.stringify] for the body of a provider
    call. *)
Inductive provider_body : Type :=
  | Capture (api_key : string) (event : string)
            (properties : gmap string jsval) (timestamp : string)
  | Collect (client_id : jsval) (events : list ga4_event).

Record provider_request : Type := ProviderRequest {
  endpoint : string;
  content_type : string;
  payload : provider_body;
}.

(** What a [fetch] settles to: a response with its status, or a rejection
    (network failure).  Every [fetch] is taken to settle; the route sets
    no timeout of its own. *)
Inductive fetch_outcome : Type :=
  | Responds (code : Z)
  | Fails (error : js_error).

(** What the route reads besides the request. *)
Record world : Type := World {
  env : environment;
  (** the n-th [new Date().toISOString()] of one invocation *)
  clock : nat → string;
  fetch : provider_request → fetch_outcome;
}.

(** The value a tracking promise is fulfilled with: the provider's
    [Response], or the object its [.catch] handler returns. *)
Inductive tracking_value : Type :=
  | Received (code : Z)
  | Caught (provider : string) (error : js_error).

(** [value.ok] *)
Definition ok (v : tracking_value) : bool :=
  match v with
  | Received code => (200 <=? code)%Z && (code <=? 299)%Z
  | Caught _ _ => false
  end.

Inductive settled : Type :=
  | Fulfilled (value : tracking_value)
  | Rejected (reason : js_error).

(** A promise pushed on [trackingPromises]: the call it was created by
    and what it settles to. *)
Record promise : Type := Promise {
  issued : provider_request;
  outcome : settled;
}.

(** [fetch(request).catch(error => ({ ok: false, provider, error }))] *)
Definition fetch_catch (w : world) (provider : string)
    (request : provider_request) : promise :=
  Promise request
    match fetch w request with
    | Responds code => Fulfilled (Received code)
    | Fails error => Fulfilled (Caught provider error)
    end.

(** [Promise.allSettled]: one result per promise, in the order of the
    array, whatever the order of completion. *)
Definition allSettled (promises : list promise) : list settled :=
  outcome <$> promises.

Definition is_success (result : settled) : bool :=
  match result with
  | Fulfilled value => ok value
  | Rejected _ => false
  end.

Definition is_failure (result : settled) : bool :=
  match result with
  | Rejected _ => true
  | Fulfilled value => negb (ok value)
  end.

Record DispatchReport : Type := Report {
  attempted : nat;
  succeeded : nat;
  failed : list settled;
}.

Definition posthog_key : string := "NEXT_PUBLIC_POSTHOG_KEY".
Definition ga4_id : string := "NEXT_PUBLIC_GA4_ID".
Definition ga4_secret : string := "GA4_API_SECRET".

Definition posthog_enabled (env : environment) : bool :=
  env_truthy env posthog_key.
Definition ga4_enabled (env : environment) : bool :=
  env_truthy env ga4_id && env_truthy env ga4_secret.

(** [/[^a-zA-Z0-9_]/] does not match [c]. *)
Definition is_word_char (c : ascii) : bool :=
  let n := nat_of_ascii c in
  ((48 <=? n)%nat && (n <=? 57)%nat) || ((65 <=? n)%nat && (n <=? 90)%nat)
  || ((97 <=? n)%nat && (n <=? 122)%nat) || (n =? 95)%nat.

(** [event.replace(/[^a-zA-Z0-9_]/g, '_')] *)
Fixpoint ga4_name (event : string) : string :=
  match event with
  | EmptyString => EmptyString
  | String c rest =>
      String (if is_word_char c then c else "_"%char) (ga4_name rest)
  end.

(** [enhancedPayload.properties] *)
Definition enhancedPayload (properties : jsval) (isValidated : bool)
    (now : string) : gmap string jsval :=
  <["timestamp" := JStr now]>
    (<["$validated" := JBool isValidated]>
       (<["$lib_version" := JStr "0.1.0"]>
          (<["$lib" := JStr "trackfast-server"]>
             (own_properties properties)))).

Definition posthog_request (env : environment) (event : string)
    (enhanced : gmap string jsval) (now : string) : provider_request :=
  ProviderRequest "https://us.i.posthog.com/capture/" "application/json"
    (Capture (env_text env posthog_key) event enhanced now).

Definition ga4_request (env : environment) (event : string)
    (properties : jsval) (enhanced : gmap string jsval) : provider_request :=
  ProviderRequest
    ("https://www.google-analytics.com/mp/collect?measurement_id="
       +:+ env_text env ga4_id +:+ "&api_secret=" +:+ env_text env ga4_secret)
    "application/json"
    (Collect (js_or (get_member_opt properties "userId") (JStr "anonymous"))
             [Ga4Event (ga4_name event) enhanced]).

(** The array [trackingPromises] once both providers were considered. *)
Definition trackingPromises (w : world) (event : string) (properties : jsval)
    (isValidated : bool) : list promise :=
  let enhanced := enhancedPayload properties isValidated (clock w 0) in
  (if posthog_enabled (env w)
   then [fetch_catch w "posthog"
           (posthog_request (env w) event enhanced (clock w 1))]
   else [])
  ++
  (if ga4_enabled (env w)
   then [fetch_catch w "ga4" (ga4_request (env w) event properties enhanced)]
   else []).

(** The three figures the route derives from the settled results. *)
Definition report (promises : list promise) : DispatchReport :=
  let results := allSettled promises in
  let successes := length (filter (λ result, is_success result = true) results) in
  let failures := filter (λ result, is_failure result = true) results in
  Report (length promises) successes failures.

Definition isValidated (request : request) : bool :=
  bool_decide (headers request !! validated_header = Some "true").

Section Route.

Variable JSON_parse : string → throws jsval.

(** The statements inside the [try] of [POST]: the response, and the
    provider calls issued on the way. *)
Definition POST_try (w : world) (request : request)
    : throws (response * list provider_request) :=
  payload ← JSON_parse (body request);
  event ← get_member payload "event";
  properties ← get_member payload "properties";
  let isValidated := isValidated request in
  match event_name event with
  | None => mret (Response 400 EventNameRequired, [])
  | Some event =>
      let promises := trackingPromises w event properties isValidated in
      let r := report promises in
      let reads := if posthog_enabled (env w) then 2 else 1 in
      mret (Response 200
              (Tracked event isValidated (attempted r) (succeeded r)
                       (length (failed r)) (clock w reads)),
            issued <$> promises)
  end.

Definition POST (w : world) (request : request)
    : response * list provider_request :=
  try_catch (POST_try w request)
    (λ error,
       (Response 500
          (InternalServerError
             (if is_development (env w) then Some (message error) else None)),
        [])).

End Route.

(** Health check endpoint *)
Definition GET (w : world) : response :=
  Response 200
    (Health (posthog_enabled (env w)) (ga4_enabled (env w)) (clock w 0)).

(** ** Figures the statements below are phrased with *)

(** The providers whose credentials are present, in the order the route
    considers them. *)
Definition enabled_providers (env : environment) : list string :=
  (if posthog_enabled env then ["posthog"] else [])
  ++ (if ga4_enabled env then ["ga4"] else []).

(** The provider answered with a 2xx status. *)
Definition delivered (o : fetch_outcome) : bool :=
  match o with
  | Responds code => ok (Received code)
  | Fails _ => false
  end.

(** The property bags a provider call carries. *)
Definition forwarded_properties (rq : provider_request)
    : list (gmap string jsval) :=
  match payload rq with
  | Capture _ _ properties _ => [properties]
  | Collect _ events => parameters <$> events
  end.

(** The event names a provider call carries. *)
Definition forwarded_names (rq : provider_request) : list string :=
  match payload rq with
  | Capture _ event _ _ => [event]
  | Collect _ events => name <$> events
  end.

(** The keys the route sets itself in [enhancedPayload.properties]. *)
Definition metadata_keys : list string :=
  ["$lib"; "$lib_version"; "$validated"; "timestamp"].

(** The credential [name] is present: set, to a value that is not
    empty. *)
Definition credential_set (env : environment) (name : string) : Prop :=
  ∃ value, env !! name = Some value ∧ value ≠ "".

Definition credentials : list string := [posthog_key; ga4_id; ga4_secret].

(** ** Sample data for the examples *)

Definition dq : string := String "034"%char EmptyString.
Definition quoted (s : string) : string := dq +:+ s +:+ dq.

(** The registry of the scenario in the specification. *)
Definition sample_schemas : schema_registry := ["user_signed_up"; "pageview"].

(** A validator in the manner of that scenario: [user_signed_up] needs a
    string [email]. *)
Definition sample_validateEvent (event : string) (properties : jsval)
    : throws unit :=
  if String.eqb event "user_signed_up" then
    match get_member_opt properties "email" with
    | JStr _ => mret ()
    | _ => throw (JsError "email: Required")
    end
  else mret ().

Definition signup_text : string :=
  "{" +:+ quoted "event" +:+ ":" +:+ quoted "user_signed_up" +:+ ","
      +:+ quoted "properties" +:+ ":{" +:+ quoted "email" +:+ ":"
      +:+ quoted "a@b.com" +:+ "," +:+ quoted "$lib" +:+ ":"
      +:+ quoted "my-client" +:+ "}}".
Definition signup_properties : jsval :=
  JObj (<["email" := JStr "a@b.com"]> {["$lib" := JStr "my-client"]}).
Definition signup_payload : jsval :=
  JObj (<["event" := JStr "user_signed_up"]>
          {["properties" := signup_properties]}).

Definition bogus_text : string :=
  "{" +:+ quoted "event" +:+ ":" +:+ quoted "bogus" +:+ "}".
Definition bogus_payload : jsval := JObj {["event" := JStr "bogus"]}.

Definition inherited_text : string :=
  "{" +:+ quoted "event" +:+ ":" +:+ quoted "toString" +:+ "}".
Definition inherited_payload : jsval := JObj {["event" := JStr "toString"]}.

(** [JSON.parse] on the bodies of the examples; any other text is taken
    as malformed. *)
Definition sample_parse (text : string) : throws jsval :=
  if String.eqb text signup_text then mret signup_payload
  else if String.eqb text bogus_text then mret bogus_payload
  else if String.eqb text inherited_text then mret inherited_payload
  else if String.eqb text "null" then mret JNull
  else throw (JsError ("Unexpected token in JSON: " +:+ text)).

Definition sample_request (headers : gmap string string) (text : string)
    : request :=
  Request "https://example.test/api/track" "/api/track" "POST" headers text.

Definition sample_clock (n : nat) : string :=
  "2025-01-01T00:00:0" +:+ pretty n +:+ ".000Z".

(** Both providers configured; PostHog answers 200, GA4 is unreachable. *)
Definition sample_env : environment :=
  <[posthog_key := "phc_A"]>
    (<[ga4_id := "G-1"]> (<[ga4_secret := "s3cret"]> ∅)).
Definition sample_fetch (rq : provider_request) : fetch_outcome :=
  match payload rq with
  | Capture _ _ _ _ => Responds 200
  | Collect _ _ => Fails (JsError "fetch failed")
  end.
Definition sample_world : world := World sample_env sample_clock sample_fetch.

(** The same credentials present, with other values. *)
Definition other_env : environment :=
  <[posthog_key := "phc_B"]>
    (<[ga4_id := "G-2"]> (<[ga4_secret := "0ther"]> ∅)).
Definition other_world : world := World other_env sample_clock sample_fetch.


(** Both providers configured and failing. *)
Definition failing_world : world :=
  World sample_env sample_clock
    (λ rq, match payload rq with
           | Capture _ _ _ _ => Responds 503
           | Collect _ _ => Fails (JsError "fetch failed")
           end).

(** ** More sample data *)

Definition no_event_text : string := "{" +:+ quoted "properties" +:+ ":{}}".
Definition no_event_payload : jsval := JObj {["properties" := JObj ∅]}.

Definition tagged_text : string :=
  "{" +:+ quoted "event" +:+ ":" +:+ quoted "pageview" +:+ ","
      +:+ quoted "properties" +:+ ":{" +:+ quoted "userId" +:+ ":"
      +:+ quoted "u-17" +:+ "}}".
Definition tagged_properties : jsval := JObj {["userId" := JStr "u-17"]}.
Definition tagged_payload : jsval :=
  JObj (<["event" := JStr "pageview"]> {["properties" := tagged_properties]}).

(** [JSON.parse] on a few more bodies. *)
Definition edge_parse (text : string) : throws jsval :=
  if String.eqb text "42" then mret (JNum 42)
  else if String.eqb text "[]" then mret (JArr [])
  else if String.eqb text no_event_text then mret no_event_payload
  else if String.eqb text tagged_text then mret tagged_payload
  else sample_parse text.

(** Both providers configured and answering 200. *)
Definition healthy_world : world :=
  World sample_env sample_clock (λ rq, Responds 200).

(** Only the GA4 measurement id is set: GA4 lacks its secret. *)
Definition partial_env : environment := <[ga4_id := "G-1"]> ∅.
Definition partial_world : world := World partial_env sample_clock sample_fetch.

(** ** The client SDK: src/lib/analytics.ts

    The typed helpers of the [analytics] object ([signUp], [pageView],
    ...) hand over to [trackEvent] of the schema module and are left
    out, as are the initialisation of the PostHog client and
    [debugAnalytics], which writes to the console only. *)

Module Analytics.

(** The browser globals the SDK reads, [window.location.pathname] and
    [document.referrer].  A page has both [window] and [document]; a
    server or a worker has neither. *)
Record dom : Type := Dom {
  location_pathname : string;
  document_referrer : string;
}.

(** [interface TrackingEvent]; [track] fills in these two members. *)
Record TrackingEvent : Type := Event {
  event : string;
  properties : gmap string jsval;
}.

(** A call on the PostHog client. *)
Inductive posthog_call : Type :=
  | posthog_capture (event : string) (properties : gmap string jsval)
  | posthog_identify (userId : string) (traits : jsval)
  | posthog_reset.

(** [fetch('/api/track', { method, headers, body: JSON.stringify(payload) })] *)
Record api_call : Type := ApiCall {
  api_url : string;
  api_method : string;
  api_content_type : string;
  api_body : TrackingEvent;
}.

(** What that [fetch] settles to: a response with its status and status
    text, or a rejection. *)
Inductive api_outcome : Type :=
  | ApiResponds (code : Z) (statusText : string)
  | ApiFails (error : js_error).

(** [response.ok] *)
Definition response_ok (code : Z) : bool := (200 <=? code)%Z && (code <=? 299)%Z.

Inductive effect : Type :=
  | Posthog (call : posthog_call)
  | Fetch (call : api_call).

(** What the SDK reads: the browser globals if there are any, the clock,
    and what the API answers. *)
Record runtime : Type := Runtime {
  window : option dom;
  now : string;
  fetch_api : api_call → api_outcome;
}.

(** [{ success: true, method }] or [{ success: false, error }] *)
Inductive track_result : Type :=
  | Success (method : string)
  | Failure (error : string).

(** Core tracking function: the result and the calls made, in order. *)
Definition track (rt : runtime) (event : string) (properties : jsval)
    : track_result * list effect :=
  let payload :=
    Event event
      (<["timestamp" := JStr (now rt)]>
         (<["$lib_version" := JStr "0.1.0"]> (own_properties properties))) in
  match window rt with
  | Some _ =>
      (Success "client",
       [Posthog (posthog_capture event (Analytics.properties payload))])
  | None =>
      let call := ApiCall "/api/track" "POST" "application/json" payload in
      match fetch_api rt call with
      | ApiResponds code statusText =>
          if response_ok code then (Success "server", [Fetch call])
          else (Failure ("Tracking failed: " +:+ statusText), [Fetch call])
      | ApiFails error => (Failure (message error), [Fetch call])
      end
  end.

(** [path || (typeof window !== 'undefined' ? window.location.pathname : '/')] *)
Definition pageview_url (rt : runtime) (path : option string) : string :=
  let fallback :=
    match window rt with
    | Some page => location_pathname page
    | None => "/"
    end in
  match path with
  | Some p => if String.eqb p "" then fallback else p
  | None => fallback
  end.

(** Convenient pageview helper.  [document?.referrer] guards against a
    [document] that is null, not against one that is not declared:
    without the browser globals the read throws a ReferenceError. *)
Definition pageview (rt : runtime) (path : option string)
    : throws (track_result * list effect) :=
  let url := pageview_url rt path in
  match window rt with
  | None => throw (JsError "document is not defined")
  | Some page =>
      mret (track rt "pageview"
              (JObj (<["referrer" := JStr (document_referrer page)]>
                       {["path" := JStr url]})))
  end.

(** User identification: [{ userId, ...traits }] lets a [userId] among
    the traits replace the argument. *)
Definition identify (rt : runtime) (userId : string) (traits : jsval)
    : track_result * list effect :=
  let identified :=
    match window rt with
    | Some _ => [Posthog (posthog_identify userId traits)]
    | None => []
    end in
  let tracked :=
    track rt "user_identified"
      (JObj (own_properties traits ∪ {["userId" := JStr userId]})) in
  (fst tracked, identified ++ snd tracked).

(** Reset user (for logout) *)
Definition reset (rt : runtime) : track_result * list effect :=
  let cleared :=
    match window rt with
    | Some _ => [Posthog posthog_reset]
    | None => []
    end in
  let tracked := track rt "user_reset" JUndefined in
  (fst tracked, cleared ++ snd tracked).

(** The property bag an effect carries to PostHog or to the API. *)
Definition tracked_properties (e : effect) : option (gmap string jsval) :=
  match e with
  | Posthog (posthog_capture _ properties) => Some properties
  | Posthog _ => None
  | Fetch call => Some (Analytics.properties (api_body call))
  end.

(** The event name an effect carries. *)
Definition tracked_event (e : effect) : option string :=
  match e with
  | Posthog (posthog_capture event _) => Some event
  | Posthog _ => None
  | Fetch call => Some (Analytics.event (api_body call))
  end.

(** The keys [track] sets itself. *)
Definition sdk_keys : list string := ["$lib_version"; "timestamp"].

End Analytics.

(** Sample runtimes: a page, and a worker whose API answers with the
    given status. *)
Definition sample_page : Analytics.runtime :=
  Analytics.Runtime (Some (Analytics.Dom "/pricing" "https://example.test/"))
    "2025-01-01T00:00:00.000Z"
    (λ _, Analytics.ApiFails (JsError "unreachable")).
Definition sample_worker (code : Z) (statusText : string) : Analytics.runtime :=
  Analytics.Runtime None "2025-01-01T00:00:00.000Z"
    (λ _, Analytics.ApiResponds code statusText).

(** ** The doctor: scripts/doctor.ts

    The checks of [TrackfastDoctor], passing the [results] array along.
    What the doctor prints ([log], the table of [printResults]) is left
    out; the requests all go to the one base url, and what the server
    there answers is part of the world the doctor runs in. *)

(** [String(v)], as a template literal converts a value. *)
Fixpoint js_to_string (v : jsval) : string :=
  match v with
  | JUndefined => "undefined"
  | JNull => "null"
  | JBool b => if b then "true" else "false"
  | JNum n => pretty n
  | JStr s => s
  | JArr items =>
      String.concat ","
        (map (λ item,
                match item with
                | JUndefined | JNull => ""
                | _ => js_to_string item
                end) items)
  | JObj _ => "[object Object]"
  end.

(** [haystack.includes(needle)] *)
Fixpoint includes (needle haystack : string) : bool :=
  String.prefix needle haystack
  || match haystack with
     | EmptyString => false
     | String _ rest => includes needle rest
     end.

(** [error.message] *)
Definition error_message (error : js_error) : string := message error.

Module Doctor.

Inductive status : Type := pass | fail | warn.

#[global] Instance status_eq_dec : EqDecision status.
Proof. solve_decision. Defined.

(** [interface DoctorResult]; [details] is [undefined] when left out. *)
Record DoctorResult : Type := Result {
  test : string;
  outcome : status;
  message : string;
  details : jsval;
}.

(** An HTTP response as the doctor reads it: [status], [statusText] and
    what [response.json()] gives. *)
Record reply : Type := Reply {
  code : Z;
  statusText : string;
  json : throws jsval;
}.

(** [response.ok] *)
Definition ok (r : reply) : bool := (200 <=? code r)%Z && (code r <=? 299)%Z.

Inductive http_outcome : Type :=
  | Replies (r : reply)
  | Rejects (error : js_error).

(** A request of the page, as the listener records it. *)
Record page_request : Type := PageRequest {
  request_url : string;
  request_method : string;
  postData : jsval;
}.

(** How the browser session of [checkBrowserTracking] goes: it breaks
    before the page is loaded (launch, new page), the load fails, it
    breaks after the load (evaluate, wait), or it finishes, the page
    having made the given requests.  Closing the browser succeeds. *)
Inductive browser_session : Type :=
  | BreaksBeforeLoad (error : js_error)
  | LoadFails (error : js_error)
  | BreaksAfterLoad (error : js_error)
  | Finishes (observed : list page_request).

Record world : Type := World {
  env : environment;
  (** GET /api/track *)
  health : http_outcome;
  (** the POSTs of [checkSchemaValidation], by payload *)
  validation : jsval → http_outcome;
  session : browser_session;
  (** the POSTs of [testEventFlow], by payload: [Date.now()] before and
      after, and the outcome *)
  flow : jsval → Z * Z * http_outcome;
}.

Definition addResult (results : list DoctorResult) (test : string)
    (outcome : status) (message : string) (details : jsval)
    : list DoctorResult :=
  results ++ [Result test outcome message details].

Definition requiredEnvVars : list string := ["NEXT_PUBLIC_POSTHOG_KEY"].
Definition optionalEnvVars : list string :=
  ["NEXT_PUBLIC_GA4_ID"; "GA4_API_SECRET"; "NEXT_PUBLIC_POSTHOG_HOST"].

Definition check_required (env : environment)
    (results : list DoctorResult) (envVar : string) : list DoctorResult :=
  if env_truthy env envVar then
    addResult results ("Environment: " +:+ envVar) pass
      ("✅ " +:+ envVar +:+ " is configured") JUndefined
  else
    addResult results ("Environment: " +:+ envVar) fail
      ("❌ " +:+ envVar +:+ " is missing - PostHog tracking will not work")
      JUndefined.

Definition check_optional (env : environment)
    (results : list DoctorResult) (envVar : string) : list DoctorResult :=
  if env_truthy env envVar then
    addResult results ("Environment: " +:+ envVar) pass
      ("✅ " +:+ envVar +:+ " is configured") JUndefined
  else
    addResult results ("Environment: " +:+ envVar) warn
      ("⚠️  " +:+ envVar +:+ " is not configured - this provider will be skipped")
      JUndefined.

Definition checkEnvironment (env : environment)
    (results : list DoctorResult) : list DoctorResult :=
  foldl (check_optional env)
    (foldl (check_required env) results requiredEnvVars)
    optionalEnvVars.

Definition checkAPIHealth (w : world) (results : list DoctorResult)
    : bool * list DoctorResult :=
  let unreachable (error : js_error) :=
    (false,
     addResult results "API Health" fail
       ("❌ Failed to connect to API: " +:+ error_message error) JUndefined) in
  match health w with
  | Rejects error => unreachable error
  | Replies response =>
      if ok response then
        match data ← json response;
              reported ← get_member data "status";
              mret (data, reported)
        with
        | inl error => unreachable error
        | inr (data, reported) =>
            (true,
             addResult results "API Health" pass
               ("✅ API is responding (" +:+ js_to_string reported +:+ ")")
               data)
        end
      else
        (false,
         addResult results "API Health" fail
           ("❌ API returned " +:+ pretty (code response) +:+ ": "
              +:+ statusText response)
           JUndefined)
  end.

(** A test case of [checkSchemaValidation]. *)
Record test_case : Type := TestCase {
  name : string;
  payload : jsval;
  shouldPass : bool;
}.

Definition signup (properties : gmap string jsval) : jsval :=
  JObj (<["event" := JStr "user_signed_up"]>
          {["properties" := JObj properties]}).

Definition testCases : list test_case :=
  [ TestCase "Valid event"
      (signup (<["email" := JStr "test@example.com"]>
                 (<["plan" := JStr "starter"]> {["source" := JStr "test"]})))
      true;
    TestCase "Invalid event name"
      (JObj (<["event" := JStr "unknown_event"]> {["properties" := JObj ∅]}))
      false;
    TestCase "Missing required field"
      (signup {["plan" := JStr "starter"]})
      false;
    TestCase "Invalid enum value"
      (signup (<["email" := JStr "test@example.com"]>
                 {["plan" := JStr "invalid_plan"]}))
      false ].

Definition expectation (success : bool) : string :=
  if success then "success" else "failure".

(** One turn of the loop of [checkSchemaValidation], on
    [validationPassed] and [results]. *)
Definition schema_case (w : world) (state : bool * list DoctorResult)
    (testCase : test_case) : bool * list DoctorResult :=
  let '(validationPassed, results) := state in
  let answered : throws (reply * jsval) :=
    match validation w (payload testCase) with
    | Rejects error => throw error
    | Replies response => data ← json response; mret (response, data)
    end in
  match answered with
  | inr (response, data) =>
      let isSuccess := ok response in
      let details :=
        JObj (<["status" := JNum (code response)]> {["response" := data]}) in
      if bool_decide (isSuccess = shouldPass testCase) then
        (validationPassed,
         addResult results ("Schema: " +:+ name testCase) pass
           ("✅ " +:+ name testCase +:+ " behaved as expected") details)
      else
        (false,
         addResult results ("Schema: " +:+ name testCase) fail
           ("❌ " +:+ name testCase +:+ " failed - expected "
              +:+ expectation (shouldPass testCase) +:+ ", got "
              +:+ expectation isSuccess)
           details)
  | inl error =>
      (false,
       addResult results ("Schema: " +:+ name testCase) fail
         ("❌ " +:+ name testCase +:+ " threw error: " +:+ error_message error)
         JUndefined)
  end.

Definition checkSchemaValidation (w : world) (results : list DoctorResult)
    : bool * list DoctorResult :=
  foldl (schema_case w) (true, results) testCases.

(** The listener keeps the requests to the API and to PostHog. *)
Definition is_tracking_request (request : page_request) : bool :=
  includes "/api/track" (request_url request)
  || includes "posthog.com" (request_url request).

Definition captured (request : page_request) : jsval :=
  JObj (<["url" := JStr (request_url request)]>
          (<["method" := JStr (request_method request)]>
             {["postData" := postData request]})).

Definition checkBrowserTracking (w : world) (results : list DoctorResult)
    : bool * list DoctorResult :=
  let general (results : list DoctorResult) (error : js_error) :=
    (false,
     addResult results "Browser: General" fail
       ("❌ Browser testing failed: " +:+ error_message error) JUndefined) in
  let loaded :=
    addResult results "Browser: Page Load" pass
      "✅ Successfully loaded the application" JUndefined in
  match session w with
  | BreaksBeforeLoad error => general results error
  | LoadFails error =>
      (false,
       addResult results "Browser: Page Load" fail
         ("❌ Failed to load application: " +:+ error_message error)
         JUndefined)
  | BreaksAfterLoad error => general loaded error
  | Finishes observed =>
      let requests :=
        filter (λ request, is_tracking_request request = true) observed in
      if (0 <? length requests)%nat then
        (true,
         addResult loaded "Browser: Tracking Requests" pass
           ("✅ Captured " +:+ pretty (length requests)
              +:+ " tracking request(s)")
           (JArr (captured <$> requests)))
      else
        (true,
         addResult loaded "Browser: Tracking Requests" warn
           "⚠️  No tracking requests detected - this may be normal in development"
           JUndefined)
  end.

(** [interface TestEvent] *)
Record TestEvent : Type := TestEventOf {
  event_name : string;
  properties : gmap string jsval;
  description : string;
}.

Definition testEvents : list TestEvent :=
  [ TestEventOf "pageview"
      (<["path" := JStr "/doctor-test"]> {["referrer" := JStr "cli-doctor"]})
      "Basic pageview tracking";
    TestEventOf "user_signed_up"
      (<["email" := JStr "doctor@trackfast.dev"]>
         (<["plan" := JStr "starter"]> {["source" := JStr "cli-test"]}))
      "User registration event";
    TestEventOf "feature_used"
      (<["feature" := JStr "doctor-test"]> {["location" := JStr "cli"]})
      "Feature usage tracking" ].

Definition flow_body (testEvent : TestEvent) : jsval :=
  JObj (<["event" := JStr (event_name testEvent)]>
          {["properties" := JObj (properties testEvent)]}).

(** One turn of the loop of [testEventFlow], on [flowPassed] and
    [results]. *)
Definition flow_case (w : world) (state : bool * list DoctorResult)
    (testEvent : TestEvent) : bool * list DoctorResult :=
  let '(flowPassed, results) := state in
  let '(startTime, endTime, answer) := flow w (flow_body testEvent) in
  let threw (error : js_error) :=
    (false,
     addResult results ("Event: " +:+ event_name testEvent) fail
       ("❌ " +:+ description testEvent +:+ " threw error: "
          +:+ error_message error)
       JUndefined) in
  match answer with
  | Rejects error => threw error
  | Replies response =>
      let duration := (endTime - startTime)%Z in
      if ok response then
        match json response with
        | inl error => threw error
        | inr data =>
            (flowPassed,
             addResult results ("Event: " +:+ event_name testEvent) pass
               ("✅ " +:+ description testEvent +:+ " (" +:+ pretty duration
                  +:+ "ms)")
               (JObj (<["duration" := JNum duration]> {["response" := data]})))
        end
      else
        (false,
         addResult results ("Event: " +:+ event_name testEvent) fail
           ("❌ " +:+ description testEvent +:+ " failed with "
              +:+ pretty (code response))
           JUndefined)
  end.

Definition testEventFlow (w : world) (results : list DoctorResult)
    : bool * list DoctorResult :=
  foldl (flow_case w) (true, results) testEvents.

Definition count (s : status) (results : list DoctorResult) : nat :=
  length (filter (λ r, outcome r = s) results).

(** The three figures of the summary line of [printResults]. *)
Definition summary (results : list DoctorResult) : nat * nat * nat :=
  (count pass results, count fail results, count warn results).

(** [run], from an empty [results] array: the verdict and the results
    recorded. *)
Definition run (w : world) : bool * list DoctorResult :=
  let results := checkEnvironment (env w) [] in
  let '(apiHealthy, results) := checkAPIHealth w results in
  if negb apiHealthy then (false, results)
  else
    let '(_, results) := checkSchemaValidation w results in
    let '(_, results) := checkBrowserTracking w results in
    let '(_, results) := testEventFlow w results in
    let criticalFailures := count fail results in
    (bool_decide (criticalFailures = 0), results).

(** The exit code of [main]. *)
Definition main (w : world) : Z := if fst (run w) then 0%Z else 1%Z.

End Doctor.

(** ** The doctor in front of the server *)

(** A member of an object literal as [JSON.stringify] keeps it: one
    whose value is [undefined] is left out. *)
Definition member (k : string) (v : jsval) (fields : gmap string jsval)
    : gmap string jsval :=
  match v with
  | JUndefined => fields
  | _ => <[k := v]> fields
  end.

(** The object handed to [NextResponse.json], as the client reads it
    back. *)
Definition to_json (b : response_body) : jsval :=
  match b with
  | InvalidJson =>
      JObj (<["error" := JStr "Invalid JSON payload"]>
              {["details" := JStr "Request body must be valid JSON"]})
  | InvalidEventName =>
      JObj (<["error" := JStr "Missing or invalid event name"]>
              {["details" := JStr "Event must be a non-empty string"]})
  | UnknownEvent error details availableEvents =>
      JObj (<["error" := JStr error]>
              (<["details" := JStr details]>
                 {["availableEvents" := JArr (JStr <$> availableEvents)]}))
  | ValidationFailed details event properties =>
      JObj (<["error" := JStr "Event validation failed"]>
              (<["details" := JStr details]>
                 (<["event" := JStr event]>
                    (member "properties" properties ∅))))
  | InternalValidationError =>
      JObj (<["error" := JStr "Internal validation error"]>
              {["details" := JStr "Event validation system error"]})
  | EventNameRequired => JObj {["error" := JStr "Event name is required"]}
  | Tracked event validated attempted successful failed timestamp =>
      JObj (<["success" := JBool true]>
              (<["event" := JStr event]>
                 (<["validated" := JBool validated]>
                    (<["providers" :=
                         JObj (<["attempted" := JNum (Z.of_nat attempted)]>
                                 (<["successful" := JNum (Z.of_nat successful)]>
                                    {["failed" := JNum (Z.of_nat failed)]}))]>
                       {["timestamp" := JStr timestamp]}))))
  | InternalServerError details =>
      JObj (<["error" := JStr "Internal server error"]>
              (member "details" (from_option JStr JUndefined details) ∅))
  | Health posthog ga4 timestamp =>
      JObj (<["status" := JStr "ok"]>
              (<["service" := JStr "trackfast-api"]>
                 (<["version" := JStr "0.1.0"]>
                    (<["providers" :=
                         JObj (<["posthog" := JBool posthog]>
                                 {["ga4" := JBool ga4]})]>
                       {["timestamp" := JStr timestamp]}))))
  end.

(** A response of the server as the doctor's [fetch] receives it;
    [reason] is the status text the transport supplies. *)
Definition answers (reason : Z → string) (r : response) : Doctor.http_outcome :=
  Doctor.Replies (Doctor.Reply (status r) (reason (status r))
                    (inr (to_json (json r)))).

(** The doctor's POST of a JSON text to /api/track. *)
Definition doctor_post (text : string) : request :=
  Request "http://localhost:3000/api/track" "/api/track" "POST"
    {["content-type" := "application/json"]} text.

(** The doctor's GET of /api/track: no body, so [request.text()] is the
    empty string. *)
Definition doctor_get : request :=
  Request "http://localhost:3000/api/track" "/api/track" "GET" ∅ "".

Section Server.

Variable JSON_parse : string → throws jsval.
Variable eventSchemas : schema_registry.
Variable validateEvent : string → jsval → throws unit.

(** A GET or POST to /api/track as the framework routes it: through the
    middleware and, unless that answers itself, on to the handler of the
    route for the method; the answer, and the provider calls made. *)
Definition serve (w : world) (gate_now : string) (rq : request)
    : response * list provider_request :=
  match middleware JSON_parse eventSchemas validateEvent rq gate_now with
  | Respond r => (r, [])
  | Next forwarded =>
      if String.eqb (method forwarded) "GET" then (GET w, [])
      else POST JSON_parse w forwarded
  end.

End Server.

(** ** Sample data for the doctor *)

(** A stand-in for [JSON.stringify] and [JSON.parse] on the bodies the
    doctor posts: an encoding that tells them apart, and its inverse. *)
Definition doctor_stringify (v : jsval) : string :=
  match get_member_opt v "event" with
  | JStr event =>
      let properties := get_member_opt v "properties" in
      event +:+ ":"
        +:+ js_to_string (get_member_opt properties "email") +:+ ":"
        +:+ js_to_string (get_member_opt properties "plan") +:+ ":"
        +:+ js_to_string (get_member_opt properties "source")
  | _ => "null"
  end.

Definition doctor_bodies : list jsval :=
  (Doctor.payload <$> Doctor.testCases)
  ++ (Doctor.flow_body <$> Doctor.testEvents).

Definition doctor_parse (text : string) : throws jsval :=
  from_option mret (throw (JsError "Unexpected token"))
    (list_find (λ v, doctor_stringify v = text) doctor_bodies ≫= λ p, Some p.2).

(** The events the doctor's payloads name, registered. *)
Definition doctor_schemas : schema_registry :=
  ["user_signed_up"; "pageview"; "feature_used"].

(** A validator for those: a sign-up needs a string [email] and a [plan]
    among free, starter and growth. *)
Definition doctor_validateEvent (event : string) (properties : jsval)
    : throws unit :=
  if String.eqb event "user_signed_up" then
    match get_member_opt properties "email",
          get_member_opt properties "plan" with
    | JStr _, JStr plan =>
        if bool_decide (plan ∈ ["free"; "starter"; "growth"]) then mret ()
        else throw (JsError "plan: Invalid enum value")
    | JStr _, _ => throw (JsError "plan: Required")
    | _, _ => throw (JsError "email: Required")
    end
  else mret ().

Definition reason_phrase (code : Z) : string :=
  if (code =? 200)%Z then "OK"
  else if (code =? 400)%Z then "Bad Request"
  else "Internal Server Error".

(** The modelled server, its providers both failing. *)
Definition sample_server (rq : request) : response :=
  fst (serve doctor_parse doctor_schemas doctor_validateEvent failing_world
         "2025-01-01T00:00:00.000Z" rq).

(** The doctor run against that server for its POSTs, with the given
    answer to the health request, from the given environment, and a page
    that made one tracking request. *)
Definition sample_doctor (env : environment) (health : Doctor.http_outcome)
    : Doctor.world :=
  Doctor.World env health
    (λ payload,
       answers reason_phrase
         (sample_server (doctor_post (doctor_stringify payload))))
    (Doctor.Finishes
       [Doctor.PageRequest "http://localhost:3000/api/track" "POST"
          (JStr "pageview")])
    (λ payload,
       (1000%Z, 1012%Z,
        answers reason_phrase
          (sample_server (doctor_post (doctor_stringify payload))))).

Definition doctor_env : environment := <[posthog_key := "phc_A"]> ∅.

(** What that server answers to the doctor's health request. *)
Definition health_answer : Doctor.http_outcome :=
  answers reason_phrase (sample_server doctor_get).

(** * Properties *)

(** ** Auxiliary facts *)

Lemma is_failure_negb result : is_failure result = negb (is_success result).
Proof. by destruct result. Qed.

Lemma successes_failures_partition (results : list settled) :
  length (filter (λ r, is_success r = true) results)
  + length (filter (λ r, is_failure r = true) results)
  = length results.
Proof.
  induction results as [|r results IH]; [done|].
  rewrite !filter_cons, is_failure_negb.
  destruct (is_success r); simpl; repeat case_decide; simpl; try done; lia.
Qed.

Lemma fetch_catch_success w provider rq :
  is_success (outcome (fetch_catch w provider rq)) = delivered (fetch w rq).
Proof. unfold fetch_catch, delivered. by destruct (fetch w rq). Qed.

Lemma fetch_catch_fulfilled w provider rq :
  ∃ value, outcome (fetch_catch w provider rq) = Fulfilled value.
Proof. unfold fetch_catch. destruct (fetch w rq); simpl; eauto. Qed.

Lemma trackingPromises_length w event properties validated :
  length (trackingPromises w event properties validated)
  = length (enabled_providers (env w)).
Proof.
  unfold trackingPromises, enabled_providers.
  by destruct (posthog_enabled (env w)), (ga4_enabled (env w)).
Qed.


(** ** Dispatch *)



Lemma trackingPromises_fetch_catch w event properties validated p :
  p ∈ trackingPromises w event properties validated →
  ∃ provider, p = fetch_catch w provider (issued p).
Proof.
  unfold trackingPromises.
  intros [Hp|Hp]%elem_of_app;
    [destruct (posthog_enabled (env w)) | destruct (ga4_enabled (env w))];
    try (by apply elem_of_nil in Hp);
    apply list_elem_of_singleton in Hp as ->; eauto.
Qed.

Lemma trackingPromises_success w event properties validated p :
  p ∈ trackingPromises w event properties validated →
  is_success (outcome p) = delivered (fetch w (issued p)).
Proof.
  intros [provider Hp]%trackingPromises_fetch_catch.
  rewrite Hp at 1. apply fetch_catch_success.
Qed.

Lemma POST_try_dispatches (JSON_parse : string → throws jsval)
    (w : world) (rq : request) (fields : gmap string jsval) (event : string) :
  JSON_parse (body rq) = inr (JObj fields) →
  event_name (default JUndefined (fields !! "event")) = Some event →
  let properties := default JUndefined (fields !! "properties") in
  let promises := trackingPromises w event properties (isValidated rq) in
  let r := report promises in
  POST_try JSON_parse w rq
  = inr (Response 200
           (Tracked event (isValidated rq) (attempted r) (succeeded r)
                    (length (failed r))
                    (clock w (if posthog_enabled (env w) then 2 else 1))),
         issued <$> promises).
Proof.
  intros Hparse Hevent properties promises r.
  unfold POST_try. rewrite Hparse. simpl. rewrite Hevent. reflexivity.
Qed.

Lemma filter_outcomes (P : settled → Prop) (Q : promise → Prop)
    `{!∀ x, Decision (P x)} `{!∀ x, Decision (Q x)} (promises : list promise) :
  Forall (λ p, P (outcome p) ↔ Q p) promises →
  filter P (outcome <$> promises) = outcome <$> filter Q promises.
Proof.
  induction 1 as [|p promises Hp _ IH]; [done|].
  rewrite fmap_cons, !filter_cons.
  repeat case_decide; rewrite ?fmap_cons, IH; tauto.
Qed.

Lemma report_by_delivery w event properties validated :
  let promises := trackingPromises w event properties validated in
  filter (λ r, is_success r = true) (outcome <$> promises)
    = outcome <$> filter (λ p, delivered (fetch w (issued p)) = true) promises
  ∧ filter (λ r, is_failure r = true) (outcome <$> promises)
    = outcome <$> filter (λ p, delivered (fetch w (issued p)) = false) promises.
Proof.
  intros promises. split; apply filter_outcomes, Forall_forall; intros p Hp.
  - by rewrite (trackingPromises_success _ _ _ _ _ Hp).
  - rewrite is_failure_negb, (trackingPromises_success _ _ _ _ _ Hp).
    by destruct (delivered (fetch w (issued p))).
Qed.

(** C2.  Once the body carries an event name, the route answers 200 with
    the three counts whatever the providers do, and does not throw.  The
    counts are the providers' own: the successes are the calls answered
    2xx, the failed entries are the outcomes of all the other calls and
    of no others, in the order of the calls, and when every call fails
    the response still is the success response, with no success and as
    many failures as providers attempted. *)
Theorem dispatch_reports_failures_without_failing
    (JSON_parse : string → throws jsval)
    (w : world) (rq : request) (fields : gmap string jsval) (event : string) :
  JSON_parse (body rq) = inr (JObj fields) →
  event_name (default JUndefined (fields !! "event")) = Some event →
  let properties := default JUndefined (fields !! "properties") in
  let promises := trackingPromises w event properties (isValidated rq) in
  let r := report promises in
  POST JSON_parse w rq
  = (Response 200
       (Tracked event (isValidated rq) (attempted r) (succeeded r)
                (length (failed r))
                (clock w (if posthog_enabled (env w) then 2 else 1))),
     issued <$> promises)
  ∧ succeeded r + length (failed r) = attempted r
  ∧ succeeded r
    = length (filter (λ p, delivered (fetch w (issued p)) = true) promises)
  ∧ failed r
    = outcome <$> filter (λ p, delivered (fetch w (issued p)) = false) promises
  ∧ (∀ p, p ∈ promises → delivered (fetch w (issued p)) = false →
          outcome p ∈ failed r)
  ∧ ((∀ call, delivered (fetch w call) = false) →
       succeeded r = 0
       ∧ length (failed r) = length (enabled_providers (env w))).
Proof.
  intros Hparse Hevent properties promises r.
  destruct (report_by_delivery w event properties (isValidated rq))
    as [Hsuccesses Hfailures].
  fold properties in Hsuccesses, Hfailures.
  fold promises in Hsuccesses, Hfailures.
  assert (Hsum : succeeded r + length (failed r) = attempted r).
  { unfold r, report; simpl. unfold allSettled.
    rewrite successes_failures_partition. by rewrite length_fmap. }
  assert (Hsucceeded : succeeded r
    = length (filter (λ p, delivered (fetch w (issued p)) = true) promises)).
  { unfold r, report, allSettled; simpl.
    by rewrite Hsuccesses, length_fmap. }
  assert (Hfailed : failed r
    = outcome <$> filter (λ p, delivered (fetch w (issued p)) = false) promises).
  { unfold r, report, allSettled; simpl. exact Hfailures. }
  assert (Hnone : (∀ call, delivered (fetch w call) = false) →
                  succeeded r = 0).
  { intros Hall. rewrite Hsucceeded.
    apply length_zero_iff_nil, elem_of_nil_inv.
    intros p [Hp _]%list_elem_of_filter. by rewrite Hall in Hp. }
  split; [|split; [|split; [|split; [|split]]]].
  - unfold POST. by rewrite (POST_try_dispatches _ _ _ _ _ Hparse Hevent).
  - exact Hsum.
  - exact Hsucceeded.
  - exact Hfailed.
  - intros p Hp Hfail. rewrite Hfailed.
    apply list_elem_of_fmap_2. by apply list_elem_of_filter.
  - intros Hall. specialize (Hnone Hall). split; [exact Hnone|].
    transitivity (attempted r); [lia|]. apply trackingPromises_length.
Qed.

Lemma dispatch_reports_failures_without_failing_witness :
  sample_parse (body (sample_request ∅ signup_text))
    = inr signup_payload
  ∧ event_name (JStr "user_signed_up") = Some "user_signed_up"
  ∧ (∀ call, delivered (fetch failing_world call) = false)
  ∧ fst (POST sample_parse failing_world (sample_request ∅ signup_text))
    = Response 200
        (Tracked "user_signed_up" false 2 0 2 "2025-01-01T00:00:02.000Z")
  ∧ fst (POST sample_parse sample_world (sample_request ∅ signup_text))
    = Response 200
        (Tracked "user_signed_up" false 2 1 1 "2025-01-01T00:00:02.000Z").
Proof.
  assert (Hparse : sample_parse (body (sample_request ∅ signup_text))
                   = inr signup_payload) by reflexivity.
  assert (Hevent : event_name (JStr "user_signed_up") = Some "user_signed_up")
    by reflexivity.
  assert (Hall : ∀ call, delivered (fetch failing_world call) = false).
  { intros call. simpl. by destruct (payload call). }
  destruct (dispatch_reports_failures_without_failing
              sample_parse failing_world (sample_request ∅ signup_text)
              _ "user_signed_up" Hparse Hevent)
    as (Hpost & _ & _ & _ & _ & Hnone).
  destruct (Hnone Hall) as [Hs Hf].
  destruct (dispatch_reports_failures_without_failing
              sample_parse sample_world (sample_request ∅ signup_text)
              _ "user_signed_up" Hparse Hevent)
    as (Hpost' & _ & Hsucceeded & Hfailed & _ & _).
  split; [exact Hparse|]. split; [exact Hevent|]. split; [exact Hall|].
  split.
  - rewrite Hpost. cbn [fst]. rewrite Hs, Hf. reflexivity.
  - rewrite Hpost'. cbn [fst]. rewrite Hsucceeded, Hfailed. reflexivity.
Defined.

(** ** The edge gate *)

Section GateFacts.

Variable JSON_parse : string → throws jsval.
Variable eventSchemas : schema_registry.
Variable validateEvent : string → jsval → throws unit.

Let gate := validateTrackingRequest JSON_parse eventSchemas validateEvent.

(** A payload that passes every check is not forwarded: the gate faults
    on [new NextRequest] and answers 500. *)
Lemma gate_faults_on_validated_payload (r : request) (now : string)
    (fields : gmap string jsval) (event : string) :
  JSON_parse (body r) = inr (JObj fields) →
  event_name (default JUndefined (fields !! "event")) = Some event →
  js_in event eventSchemas = true →
  validateEvent event
    (js_or (default JUndefined (fields !! "properties")) (JObj ∅))
    = inr () →
  gate r now = Respond (Response 500 InternalValidationError).
Proof.
  intros Hparse Hevent Hin Hvalid.
  unfold gate, validateTrackingRequest, validateTrackingRequest_try.
  rewrite Hparse. simpl. rewrite Hevent, Hin. simpl. rewrite Hvalid.
  reflexivity.
Qed.

(** The gate answers every request itself, with status 400 or 500. *)
Lemma gate_answer_status (r : request) (now : string) :
  ∃ resp,
    gate r now = Respond resp
    ∧ (status resp = 400%Z ∨ status resp = 500%Z).
Proof.
  unfold gate, validateTrackingRequest, validateTrackingRequest_try.
  destruct (JSON_parse (body r)) as [e|payload]; [eexists; by eauto|].
  destruct (get_member payload "event") as [e|event]; simpl;
    [eexists; by eauto|].
  destruct (event_name event) as [name|]; [|eexists; by eauto].
  destruct (js_in name eventSchemas); simpl; [|eexists; by eauto].
  destruct (get_member payload "properties") as [e|properties]; simpl;
    [eexists; by eauto|].
  destruct (validateEvent name _) as [e|u]; simpl; eexists; by eauto.
Qed.

Lemma gate_never_forwards (r : request) (now : string) :
  ∃ resp, gate r now = Respond resp.
Proof. destruct (gate_answer_status r now) as (resp & ? & _). eauto. Qed.

(** The gate rejects a name that is no member of the registry object
    with the list of registered names, in [Object.keys] order. *)
Lemma gate_rejects_unknown_event (r : request) (now : string)
    (fields : gmap string jsval) (event : string) :
  JSON_parse (body r) = inr (JObj fields) →
  event_name (default JUndefined (fields !! "event")) = Some event →
  js_in event eventSchemas = false →
  gate r now
  = Respond (Response 400
      (UnknownEvent ("Unknown event: " +:+ event)
         ("Available events: " +:+ String.concat ", " eventSchemas)
         eventSchemas)).
Proof.
  intros Hparse Hevent Hin.
  unfold gate, validateTrackingRequest, validateTrackingRequest_try.
  rewrite Hparse. simpl. rewrite Hevent, Hin. reflexivity.
Qed.

Lemma gate_reports_validation_failure (r : request) (now : string)
    (fields : gmap string jsval) (event : string) (error : js_error) :
  JSON_parse (body r) = inr (JObj fields) →
  event_name (default JUndefined (fields !! "event")) = Some event →
  js_in event eventSchemas = true →
  validateEvent event
    (js_or (default JUndefined (fields !! "properties")) (JObj ∅))
    = inl error →
  gate r now
  = Respond (Response 400
      (ValidationFailed (message error) event
         (default JUndefined (fields !! "properties")))).
Proof.
  intros Hparse Hevent Hin Hvalid.
  unfold gate, validateTrackingRequest, validateTrackingRequest_try.
  rewrite Hparse. simpl. rewrite Hevent, Hin. simpl. rewrite Hvalid.
  reflexivity.
Qed.

Lemma middleware_intercepts_track (r : request) (now : string) :
  pathname r = "/api/track" →
  middleware JSON_parse eventSchemas validateEvent r now = gate r now.
Proof. unfold middleware. by intros ->. Qed.

(** What the gate answers is decided by the body alone: neither the
    headers nor the time of the validation enter into it. *)
Lemma gate_decided_by_body (r r' : request) (now now' : string) :
  body r' = body r → gate r' now' = gate r now.
Proof.
  intros Hbody.
  unfold gate, validateTrackingRequest, validateTrackingRequest_try.
  rewrite Hbody. reflexivity.
Qed.

(** C5.  Validating the same payload twice gives the same result, with
    whatever goes with it: the result does not depend on the time of the
    validation, nor on anything of the request but its body. *)
Theorem validation_repeats_identically (r r' : request) (t1 t2 : string) :
  body r' = body r →
  validateTrackingRequest JSON_parse eventSchemas validateEvent r t1
  = validateTrackingRequest JSON_parse eventSchemas validateEvent r' t2.
Proof. intros Hbody. symmetry. by apply gate_decided_by_body. Qed.

End GateFacts.

Lemma validation_repeats_identically_witness :
  let first := sample_request ∅ signup_text in
  let second := sample_request {["x-request-id" := "2"]} signup_text in
  body second = body first
  ∧ validateTrackingRequest sample_parse sample_schemas sample_validateEvent
      first "2025-01-01T00:00:00.000Z"
    = validateTrackingRequest sample_parse sample_schemas sample_validateEvent
        second "2025-01-01T00:00:01.000Z".
Proof.
  intros first second.
  assert (Hbody : body second = body first) by reflexivity.
  split; [exact Hbody|].
  exact (validation_repeats_identically sample_parse sample_schemas
           sample_validateEvent first second _ _ Hbody).
Defined.

(** C7 at a payload that passes validation.  The sign-up of the samples
    names a registered event and satisfies the validator, yet the gate
    does not forward it with a marker: whatever the headers and the time,
    it answers 500 "Internal validation error". *)
Theorem validated_request_is_answered_500
    (headers : gmap string string) (now : string) :
  js_in "user_signed_up" sample_schemas = true
  ∧ sample_validateEvent "user_signed_up" signup_properties = inr ()
  ∧ validateTrackingRequest sample_parse sample_schemas sample_validateEvent
      (sample_request headers signup_text) now
    = Respond (Response 500 InternalValidationError).
Proof.
  split; [reflexivity|]. split; [reflexivity|].
  by apply (gate_faults_on_validated_payload sample_parse sample_schemas
              sample_validateEvent (sample_request headers signup_text) now
              (<["event" := JStr "user_signed_up"]>
                 {["properties" := signup_properties]}) "user_signed_up").
Qed.

(** C3, as stated, fails: a request sent to the route with a forged
    [x-trackfast-validated] header is reported as validated although no
    run of the gate forwards it. *)
Lemma forged_marker_is_trusted :
  ¬ (∀ (JSON_parse : string → throws jsval) (eventSchemas : schema_registry)
       (validateEvent : string → jsval → throws unit)
       (w : world) (rq : request) event n s f t,
       fst (POST JSON_parse w rq) = Response 200 (Tracked event true n s f t) →
       ∃ r now,
         validateTrackingRequest JSON_parse eventSchemas validateEvent r now
         = Next rq).
Proof.
  intros H.
  assert (Htrusted :
    fst (POST sample_parse sample_world
           (sample_request {[validated_header := "true"]} bogus_text))
    = Response 200 (Tracked "bogus" true 2 1 1 "2025-01-01T00:00:02.000Z"))
    by (vm_compute; reflexivity).
  destruct (H sample_parse sample_schemas sample_validateEvent _ _ _ _ _ _ _
              Htrusted)
    as (r & now & Hgate).
  destruct (gate_never_forwards sample_parse sample_schemas
              sample_validateEvent r now) as [resp Hresp].
  rewrite Hresp in Hgate. discriminate Hgate.
Qed.

(** The scenario of an unregistered name: the answer lists the registered
    names in registration order. *)
Example unknown_event_lists_registered_names (now : string) :
  validateTrackingRequest sample_parse sample_schemas sample_validateEvent
    (sample_request ∅ bogus_text) now
  = Respond (Response 400
      (UnknownEvent "Unknown event: bogus"
         "Available events: user_signed_up, pageview"
         ["user_signed_up"; "pageview"])).
Proof. reflexivity. Qed.

(** C6 at an inherited member name.  [toString] is not a registered event,
    yet the gate does not answer that the event is unknown: the name
    passes the [in] test and goes to the validator, and the answer is
    400 "Event validation failed" when that throws and 500 when it
    returns. *)
Theorem inherited_member_name_is_not_reported_unknown
    (validateEvent : string → jsval → throws unit) (now : string) :
  let r := sample_request ∅ inherited_text in
  ("toString" ∉ Object_keys sample_schemas)
  ∧ validateTrackingRequest sample_parse sample_schemas validateEvent r now
    = match validateEvent "toString" (JObj ∅) with
      | inl validationError =>
          Respond (Response 400
            (ValidationFailed (message validationError) "toString" JUndefined))
      | inr _ => Respond (Response 500 InternalValidationError)
      end.
Proof.
  intros r. split.
  - unfold Object_keys, sample_schemas. intros Hin.
    repeat (apply elem_of_cons in Hin as [Hin|Hin]; [discriminate Hin|]).
    by apply elem_of_nil in Hin.
  - assert (Hparse : sample_parse (body r)
                     = inr (JObj {["event" := JStr "toString"]}))
      by reflexivity.
    destruct (validateEvent "toString" (JObj ∅)) as [error|[]] eqn:Hvalid.
    + by rewrite (gate_reports_validation_failure _ _ _ r now _ "toString"
                    error Hparse).
    + by rewrite (gate_faults_on_validated_payload _ _ _ r now _ "toString"
                    Hparse).
Qed.

(** ** What the providers are sent *)

Lemma trackingPromises_issued w event properties validated p :
  p ∈ trackingPromises w event properties validated →
  let enhanced := enhancedPayload properties validated (clock w 0) in
  payload (issued p)
    = Capture (env_text (env w) posthog_key) event enhanced (clock w 1)
  ∨ payload (issued p)
    = Collect (js_or (get_member_opt properties "userId") (JStr "anonymous"))
              [Ga4Event (ga4_name event) enhanced].
Proof.
  unfold trackingPromises.
  intros [Hp|Hp]%elem_of_app;
    [destruct (posthog_enabled (env w)) | destruct (ga4_enabled (env w))];
    try (by apply elem_of_nil in Hp);
    apply list_elem_of_singleton in Hp as ->; simpl; auto.
Qed.

Lemma forwarded_properties_enhanced w event properties validated p bag :
  p ∈ trackingPromises w event properties validated →
  bag ∈ forwarded_properties (issued p) →
  bag = enhancedPayload properties validated (clock w 0).
Proof.
  intros Hp Hbag. unfold forwarded_properties in Hbag.
  destruct (trackingPromises_issued _ _ _ _ _ Hp) as [H|H];
    rewrite H in Hbag; simpl in Hbag;
    by apply list_elem_of_singleton in Hbag.
Qed.

Lemma enhancedPayload_other properties validated now k :
  k ∉ metadata_keys →
  enhancedPayload properties validated now !! k
  = own_properties properties !! k.
Proof.
  unfold metadata_keys, enhancedPayload. intros Hk.
  rewrite !not_elem_of_cons in Hk. destruct Hk as (? & ? & ? & ? & _).
  by rewrite !lookup_insert_ne.
Qed.

(** C4, as the route has it.  Every property of the input whose key is
    not one of [$lib], [$lib_version], [$validated] and [timestamp]
    reaches each provider unchanged, and nothing else is added; those four
    keys carry the route's own values, whatever the input held there. *)
Theorem properties_pass_through_except_metadata
    (w : world) (event : string) (properties : jsval) (validated : bool)
    (p : promise) (bag : gmap string jsval) :
  p ∈ trackingPromises w event properties validated →
  bag ∈ forwarded_properties (issued p) →
  (∀ k, k ∉ metadata_keys → bag !! k = own_properties properties !! k)
  ∧ bag !! "$lib" = Some (JStr "trackfast-server")
  ∧ bag !! "$lib_version" = Some (JStr "0.1.0")
  ∧ bag !! "$validated" = Some (JBool validated)
  ∧ bag !! "timestamp" = Some (JStr (clock w 0)).
Proof.
  intros Hp Hbag.
  rewrite (forwarded_properties_enhanced _ _ _ _ _ _ Hp Hbag).
  split; [intros k Hk; by apply enhancedPayload_other|].
  unfold enhancedPayload.
  repeat split; rewrite ?lookup_insert_ne by done; apply lookup_insert_eq.
Qed.

Lemma properties_pass_through_except_metadata_witness :
  let p := fetch_catch sample_world "ga4"
             (ga4_request sample_env "user_signed_up" signup_properties
                (enhancedPayload signup_properties false (sample_clock 0))) in
  let bag := enhancedPayload signup_properties false (sample_clock 0) in
  p ∈ trackingPromises sample_world "user_signed_up" signup_properties false
  ∧ bag ∈ forwarded_properties (issued p)
  ∧ ("email" ∉ metadata_keys)
  ∧ bag !! "email" = Some (JStr "a@b.com").
Proof.
  intros p bag.
  assert (Hp : p ∈ trackingPromises sample_world "user_signed_up"
                     signup_properties false).
  { unfold trackingPromises.
    change (posthog_enabled (env sample_world)) with true.
    change (ga4_enabled (env sample_world)) with true.
    apply elem_of_app. right. apply list_elem_of_singleton. reflexivity. }
  assert (Hbag : bag ∈ forwarded_properties (issued p)).
  { apply list_elem_of_singleton. reflexivity. }
  assert (Hk : "email" ∉ metadata_keys).
  { unfold metadata_keys. intros Hin.
    repeat (apply elem_of_cons in Hin as [Hin|Hin]; [discriminate Hin|]).
    by apply elem_of_nil in Hin. }
  repeat (split; [assumption|]).
  destruct (properties_pass_through_except_metadata
              sample_world "user_signed_up" signup_properties false p bag
              Hp Hbag) as [Hother _].
  rewrite (Hother "email" Hk). reflexivity.
Defined.

(** C4, as stated, fails: an input property named [$lib], which no schema
    declares, reaches PostHog with the route's value instead of the
    caller's. *)
Lemma metadata_keys_overwrite_input_properties :
  ¬ (∀ (w : world) (event : string) (properties : jsval) (validated : bool)
       (declared : list string) (p : promise) (bag : gmap string jsval)
       (k : string) (v : jsval),
       p ∈ trackingPromises w event properties validated →
       bag ∈ forwarded_properties (issued p) →
       k ∉ declared →
       own_properties properties !! k = Some v →
       bag !! k = Some v).
Proof.
  intros H.
  set (bag := enhancedPayload signup_properties false (sample_clock 0)).
  set (p := fetch_catch sample_world "posthog"
              (posthog_request sample_env "user_signed_up" bag
                 (sample_clock 1))).
  assert (Hp : p ∈ trackingPromises sample_world "user_signed_up"
                     signup_properties false).
  { unfold trackingPromises.
    change (posthog_enabled (env sample_world)) with true.
    apply elem_of_app. left. apply list_elem_of_singleton. reflexivity. }
  assert (Hbag : bag ∈ forwarded_properties (issued p)).
  { apply list_elem_of_singleton. reflexivity. }
  assert (Hk : "$lib" ∉ ["email"; "plan"; "source"]).
  { intros Hin.
    repeat (apply elem_of_cons in Hin as [Hin|Hin]; [discriminate Hin|]).
    by apply elem_of_nil in Hin. }
  specialize (H sample_world "user_signed_up" signup_properties false
                ["email"; "plan"; "source"] p bag "$lib" (JStr "my-client")
                Hp Hbag Hk eq_refl).
  vm_compute in H. discriminate H.
Qed.

Lemma ga4_name_chars (event : string) :
  String.list_ascii_of_string (ga4_name event)
  = (λ c, if is_word_char c then c else "_"%char)
      <$> String.list_ascii_of_string event.
Proof.
  induction event as [|c rest IH]; [reflexivity|].
  simpl. by rewrite IH.
Qed.

Lemma ga4_name_word_chars (event : string) :
  Forall (λ c, is_word_char c = true)
         (String.list_ascii_of_string (ga4_name event)).
Proof.
  rewrite ga4_name_chars. apply Forall_fmap, Forall_forall.
  intros c _. simpl. by destruct (is_word_char c) eqn:Hc.
Qed.



(** ** The trust marker at the route *)

Section MarkerByValue.

Variable JSON_parse : string → throws jsval.

(** The route's answer is decided by the body and by the one header. *)
Lemma POST_reads_one_header (w : world) (rq rq' : request) :
  body rq' = body rq →
  headers rq' !! validated_header = headers rq !! validated_header →
  POST JSON_parse w rq' = POST JSON_parse w rq.
Proof.
  intros Hbody Hheader. unfold POST, POST_try, isValidated.
  by rewrite Hbody, Hheader.
Qed.

(** C3, as the route has it.  For a request that names an event the
    route reports validated in its answer, and sends [$validated] to
    every provider it calls, according to whether the
    [x-trackfast-validated] header is the string true and to nothing
    else: a request with the same body and the same value of that header
    gets the same answer, whoever set it. *)
Theorem route_trusts_marker_by_value
    (w : world) (rq : request) (fields : gmap string jsval) (event : string) :
  JSON_parse (body rq) = inr (JObj fields) →
  event_name (default JUndefined (fields !! "event")) = Some event →
  let trusted := bool_decide (headers rq !! validated_header = Some "true") in
  (∃ n s f t,
     fst (POST JSON_parse w rq) = Response 200 (Tracked event trusted n s f t))
  ∧ (∀ call bag,
       call ∈ snd (POST JSON_parse w rq) →
       bag ∈ forwarded_properties call →
       bag !! "$validated" = Some (JBool trusted))
  ∧ (∀ rq',
       body rq' = body rq →
       headers rq' !! validated_header = headers rq !! validated_header →
       POST JSON_parse w rq' = POST JSON_parse w rq).
Proof.
  intros Hparse Hevent trusted.
  assert (Hpost := POST_try_dispatches JSON_parse w rq fields event Hparse Hevent).
  simpl in Hpost. unfold POST. rewrite Hpost. simpl.
  split; [by do 4 eexists|]. split.
  - intros call bag [p [-> Hp]]%list_elem_of_fmap Hbag.
    rewrite (forwarded_properties_enhanced _ _ _ _ _ _ Hp Hbag).
    unfold enhancedPayload.
    by rewrite lookup_insert_ne, lookup_insert_eq.
  - intros rq' Hbody Hheader.
    pose proof (POST_reads_one_header w rq rq' Hbody Hheader) as Hsame.
    unfold POST in Hsame. by rewrite Hsame, Hpost.
Qed.

End MarkerByValue.

Lemma route_trusts_marker_by_value_witness :
  let rq := sample_request {[validated_header := "true"]} bogus_text in
  sample_parse (body rq) = inr bogus_payload
  ∧ event_name (JStr "bogus") = Some "bogus"
  ∧ ∃ n s f t,
      fst (POST sample_parse sample_world rq)
      = Response 200 (Tracked "bogus" true n s f t).
Proof.
  intros rq.
  assert (Hparse : sample_parse (body rq) = inr bogus_payload) by reflexivity.
  assert (Hevent : event_name (JStr "bogus") = Some "bogus") by reflexivity.
  split; [exact Hparse|]. split; [exact Hevent|].
  exact (proj1 (route_trusts_marker_by_value sample_parse sample_world rq
                  _ "bogus" Hparse Hevent)).
Defined.

(** ** Faults *)

(** The route faults on a body that is not JSON and on the body [null]. *)
Lemma POST_try_faults (JSON_parse : string → throws jsval)
    (w : world) (rq : request) :
  (∀ error, JSON_parse (body rq) = inl error →
            POST_try JSON_parse w rq = inl error)
  ∧ (JSON_parse (body rq) = inr JNull →
     ∃ error, POST_try JSON_parse w rq = inl error).
Proof.
  unfold POST_try. split.
  - by intros error ->.
  - intros ->. simpl. eauto.
Qed.

(** C9.  A fault thrown inside either handler is caught and answered with
    status 500.  Outside development the route's answer is the fixed
    error body with no details, whatever the fault was; the gate's answer
    is a fixed body in every environment. *)
Theorem faults_are_answered_with_generic_error
    (JSON_parse : string → throws jsval) (eventSchemas : schema_registry)
    (validateEvent : string → jsval → throws unit)
    (w : world) (rq : request) (now : string) :
  (∀ fault,
     POST_try JSON_parse w rq = inl fault →
     is_development (env w) = false →
     POST JSON_parse w rq = (Response 500 (InternalServerError None), []))
  ∧ (∀ fault,
       validateTrackingRequest_try JSON_parse eventSchemas validateEvent rq now
       = inl fault →
       validateTrackingRequest JSON_parse eventSchemas validateEvent rq now
       = Respond (Response 500 InternalValidationError)).
Proof.
  split.
  - intros fault Hfault Hprod. unfold POST. rewrite Hfault; simpl.
    by rewrite Hprod.
  - intros fault Hfault. unfold validateTrackingRequest. by rewrite Hfault.
Qed.

Lemma faults_are_answered_with_generic_error_witness :
  let rq := sample_request ∅ "null" in
  let fault := JsError "Cannot read properties of null (reading 'event')" in
  POST_try sample_parse sample_world rq = inl fault
  ∧ is_development (env sample_world) = false
  ∧ POST sample_parse sample_world rq
    = (Response 500 (InternalServerError None), [])
  ∧ validateTrackingRequest_try sample_parse sample_schemas
      sample_validateEvent rq "2025-01-01T00:00:00.000Z" = inl fault
  ∧ validateTrackingRequest sample_parse sample_schemas
      sample_validateEvent rq "2025-01-01T00:00:00.000Z"
    = Respond (Response 500 InternalValidationError).
Proof.
  intros rq fault.
  assert (Hroute : POST_try sample_parse sample_world rq = inl fault)
    by reflexivity.
  assert (Hprod : is_development (env sample_world) = false) by reflexivity.
  assert (Hgate : validateTrackingRequest_try sample_parse sample_schemas
                    sample_validateEvent rq "2025-01-01T00:00:00.000Z"
                  = inl fault) by reflexivity.
  destruct (faults_are_answered_with_generic_error
              sample_parse sample_schemas sample_validateEvent
              sample_world rq "2025-01-01T00:00:00.000Z") as [Hr Hg].
  split; [exact Hroute|]. split; [exact Hprod|].
  split; [exact (Hr fault Hroute Hprod)|].
  split; [exact Hgate|]. exact (Hg fault Hgate).
Defined.

(** ** Health *)

Lemma env_truthy_credential_set (env : environment) (name : string) :
  env_truthy env name = true ↔ credential_set env name.
Proof.
  unfold env_truthy, credential_set.
  destruct (env !! name) as [value|]; split.
  - intros H. exists value. split; [done|].
    intros ->. discriminate H.
  - intros (value' & [= <-] & Hne).
    destruct (String.eqb_spec value ""); [contradiction|reflexivity].
  - discriminate.
  - intros (value & [=] & _).
Qed.

Lemma env_truthy_agree (env1 env2 : environment) (name : string) :
  (credential_set env1 name ↔ credential_set env2 name) →
  env_truthy env1 name = env_truthy env2 name.
Proof.
  rewrite <- !env_truthy_credential_set.
  destruct (env_truthy env1 name), (env_truthy env2 name); intuition congruence.
Qed.

(** C10.  The health response is decided by which credentials are
    present, not by their values: two environments in which the same
    credentials are present give the same response (read at the same
    time), so no credential value shows in it. *)
Theorem health_depends_on_presence_only (w1 w2 : world) :
  (∀ name, name ∈ credentials →
           (credential_set (env w1) name ↔ credential_set (env w2) name)) →
  clock w1 0 = clock w2 0 →
  GET w1 = GET w2.
Proof.
  intros Hsame Hclock. unfold GET, posthog_enabled, ga4_enabled.
  rewrite Hclock.
  rewrite (env_truthy_agree (env w1) (env w2) posthog_key),
          (env_truthy_agree (env w1) (env w2) ga4_id),
          (env_truthy_agree (env w1) (env w2) ga4_secret);
    [reflexivity|apply Hsame; unfold credentials; repeat constructor..].
Qed.

Lemma health_depends_on_presence_only_witness :
  (∀ name, name ∈ credentials →
           (credential_set (env sample_world) name
            ↔ credential_set (env other_world) name))
  ∧ env sample_world !! posthog_key ≠ env other_world !! posthog_key
  ∧ GET sample_world = GET other_world.
Proof.
  assert (Hsame : ∀ name, name ∈ credentials →
            (credential_set (env sample_world) name
             ↔ credential_set (env other_world) name)).
  { intros name Hname. unfold credentials in Hname.
    repeat (apply elem_of_cons in Hname as [->|Hname];
            [split; intros _; eexists; (split; [reflexivity|discriminate])|]).
    by apply elem_of_nil in Hname. }
  split; [exact Hsame|]. split; [discriminate|].
  exact (health_depends_on_presence_only sample_world other_world
           Hsame eq_refl).
Defined.

(** * Further properties of the handlers *)

(** ** What the gate answers *)

Section GateCoverage.

Variable JSON_parse : string → throws jsval.
Variable eventSchemas : schema_registry.
Variable validateEvent : string → jsval → throws unit.

Let gate := validateTrackingRequest JSON_parse eventSchemas validateEvent.

(** X1.  The gate hands no request on to the route: whatever the
    request and the time, it answers itself, with status 400 or 500. *)
Theorem gate_answers_every_request (r : request) (now : string) :
  ∃ resp,
    gate r now = Respond resp
    ∧ (status resp = 400%Z ∨ status resp = 500%Z).
Proof. apply gate_answer_status. Qed.

(** X2.  The gate's answer is 500 "Internal validation error" in two
    cases and no other: the body parses to [null], or the payload passes
    every check (an object, with a non-empty string [event] that passes
    the [in] test on the registry, which [validateEvent] accepts). *)
Theorem gate_answers_500_exactly (r : request) (now : string) :
  gate r now = Respond (Response 500 InternalValidationError)
  ↔ JSON_parse (body r) = inr JNull
    ∨ JSON_parse (body r) = inr JUndefined
    ∨ ∃ fields event,
        JSON_parse (body r) = inr (JObj fields)
        ∧ event_name (default JUndefined (fields !! "event")) = Some event
        ∧ js_in event eventSchemas = true
        ∧ validateEvent event
            (js_or (default JUndefined (fields !! "properties")) (JObj ∅))
            = inr ().
Proof.
  split.
  - unfold gate, validateTrackingRequest, validateTrackingRequest_try.
    destruct (JSON_parse (body r)) as [e|payload] eqn:Hparse; [discriminate|].
    destruct payload as [| | | | |items|fields]; simpl; try discriminate;
      try (by auto).
    destruct (event_name (default JUndefined (fields !! "event")))
      as [event|] eqn:Hevent; simpl; [|discriminate].
    destruct (js_in event eventSchemas) eqn:Hin; simpl; [|discriminate].
    destruct (validateEvent event _) as [e|[]] eqn:Hvalid; simpl;
      [discriminate|].
    intros _. right. right. by exists fields, event.
  - intros [Hparse|[Hparse|(fields & event & Hparse & Hevent & Hin & Hvalid)]].
    + unfold gate, validateTrackingRequest, validateTrackingRequest_try.
      by rewrite Hparse.
    + unfold gate, validateTrackingRequest, validateTrackingRequest_try.
      by rewrite Hparse.
    + by apply (gate_faults_on_validated_payload JSON_parse eventSchemas
                  validateEvent r now fields event).
Qed.

(** X3.  A body that is JSON but carries no usable event name (a number,
    a string, an array, a boolean, or an object whose [event] is missing,
    empty or not a string) is answered 400 "Missing or invalid event
    name", before the registry or the validator is consulted. *)
Theorem gate_rejects_payload_without_event_name
    (r : request) (now : string) (payload : jsval) :
  JSON_parse (body r) = inr payload →
  payload ≠ JNull → payload ≠ JUndefined →
  event_name (get_member_opt payload "event") = None →
  gate r now = Respond (Response 400 InvalidEventName).
Proof.
  intros Hparse Hnull Hundef Hevent.
  unfold gate, validateTrackingRequest, validateTrackingRequest_try.
  rewrite Hparse. unfold get_member_opt in Hevent.
  destruct payload as [| | | | |items|fields]; simpl in *;
    try done; by rewrite Hevent.
Qed.

End GateCoverage.

Lemma gate_rejects_payload_without_event_name_witness :
  let r := sample_request ∅ "[]" in
  edge_parse (body r) = inr (JArr [])
  ∧ JArr [] ≠ JNull ∧ JArr [] ≠ JUndefined
  ∧ event_name (get_member_opt (JArr []) "event") = None
  ∧ validateTrackingRequest edge_parse sample_schemas sample_validateEvent
      r "now" = Respond (Response 400 InvalidEventName).
Proof.
  intros r.
  assert (Hparse : edge_parse (body r) = inr (JArr [])) by reflexivity.
  assert (H1 : JArr [] ≠ JNull) by discriminate.
  assert (H2 : JArr [] ≠ JUndefined) by discriminate.
  assert (Hevent : event_name (get_member_opt (JArr []) "event") = None)
    by reflexivity.
  repeat (split; [assumption|]).
  exact (gate_rejects_payload_without_event_name
           edge_parse sample_schemas sample_validateEvent r "now" (JArr [])
           Hparse H1 H2 Hevent).
Defined.

(** ** What the route answers and whom it calls *)

Section RouteCoverage.

Variable JSON_parse : string → throws jsval.

(** X4.  The route calls a provider only on the way to a 200 answer: an
    answer with another status comes with no provider call at all, and a
    200 answer reports as attempted exactly the number of calls issued,
    which is at most two. *)
Theorem route_calls_providers_only_on_success (w : world) (rq : request) :
  let answer := POST JSON_parse w rq in
  (status (fst answer) ≠ 200%Z → snd answer = [])
  ∧ (∀ event validated n s f t,
       json (fst answer) = Tracked event validated n s f t →
       status (fst answer) = 200%Z
       ∧ length (snd answer) = n ∧ n ≤ 2 ∧ s + f = n).
Proof.
  unfold POST, POST_try.
  destruct (JSON_parse (body rq)) as [e|payload]; simpl;
    [split; [done|intros * [=]]|].
  destruct (get_member payload "event") as [e|event]; simpl;
    [split; [done|intros * [=]]|].
  destruct (get_member payload "properties") as [e|properties]; simpl;
    [split; [done|intros * [=]]|].
  destruct (event_name event) as [name|]; simpl;
    [|split; [done|intros * [=]]].
  split; [done|]. intros * [= <- <- <- <- <- <-].
  split; [done|]. rewrite length_fmap. split; [done|]. split.
  - rewrite trackingPromises_length. unfold enabled_providers.
    destruct (posthog_enabled (env w)), (ga4_enabled (env w)); simpl; lia.
  - unfold allSettled. rewrite successes_failures_partition.
    by rewrite length_fmap.
Qed.

(** X5.  A body whose [event] is missing, empty or not a string is
    answered 400 "Event name is required" whatever the environment and
    the providers are, and nothing is sent. *)
Theorem route_requires_event_name
    (w : world) (rq : request) (payload : jsval) :
  JSON_parse (body rq) = inr payload →
  payload ≠ JNull → payload ≠ JUndefined →
  event_name (get_member_opt payload "event") = None →
  POST JSON_parse w rq = (Response 400 EventNameRequired, []).
Proof.
  intros Hparse Hnull Hundef Hevent.
  unfold POST, POST_try. rewrite Hparse. unfold get_member_opt in Hevent.
  destruct payload as [| | | | |items|fields]; simpl in *;
    try done; by rewrite Hevent.
Qed.

(** X6.  Through the middleware a request to /api/track does not reach
    the route: the server's answer is the gate's, with status 400 or 500,
    and no provider is called. *)
Theorem no_request_reaches_the_route
    (eventSchemas : schema_registry)
    (validateEvent : string → jsval → throws unit)
    (w : world) (now : string) (rq : request) :
  pathname rq = "/api/track" →
  ∃ resp,
    serve JSON_parse eventSchemas validateEvent w now rq = (resp, [])
    ∧ validateTrackingRequest JSON_parse eventSchemas validateEvent rq now
      = Respond resp
    ∧ (status resp = 400%Z ∨ status resp = 500%Z).
Proof.
  intros Hpath. unfold serve.
  rewrite (middleware_intercepts_track _ _ _ rq now Hpath).
  destruct (gate_answer_status JSON_parse eventSchemas validateEvent rq now)
    as (resp & Hgate & Hstatus).
  exists resp. by rewrite Hgate.
Qed.

End RouteCoverage.

Lemma route_calls_providers_only_on_success_witness :
  let answer := POST sample_parse sample_world (sample_request ∅ signup_text) in
  json (fst answer)
    = Tracked "user_signed_up" false 2 1 1 "2025-01-01T00:00:02.000Z"
  ∧ status (fst answer) = 200%Z ∧ length (snd answer) = 2.
Proof.
  intros answer.
  assert (H : json (fst answer)
              = Tracked "user_signed_up" false 2 1 1
                  "2025-01-01T00:00:02.000Z") by (vm_compute; reflexivity).
  split; [exact H|].
  destruct (route_calls_providers_only_on_success sample_parse sample_world
              (sample_request ∅ signup_text)) as [_ Hcalls].
  destruct (Hcalls _ _ _ _ _ _ H) as (Hstatus & Hlength & _).
  split; [exact Hstatus | exact Hlength].
Defined.

Lemma route_requires_event_name_witness :
  let rq := sample_request ∅ no_event_text in
  edge_parse (body rq) = inr no_event_payload
  ∧ no_event_payload ≠ JNull ∧ no_event_payload ≠ JUndefined
  ∧ event_name (get_member_opt no_event_payload "event") = None
  ∧ POST edge_parse sample_world rq = (Response 400 EventNameRequired, []).
Proof.
  intros rq.
  assert (Hparse : edge_parse (body rq) = inr no_event_payload)
    by reflexivity.
  assert (H1 : no_event_payload ≠ JNull) by discriminate.
  assert (H2 : no_event_payload ≠ JUndefined) by discriminate.
  assert (Hevent : event_name (get_member_opt no_event_payload "event") = None)
    by reflexivity.
  repeat (split; [assumption|]).
  exact (route_requires_event_name edge_parse sample_world rq
           no_event_payload Hparse H1 H2 Hevent).
Defined.

Lemma no_request_reaches_the_route_witness :
  let rq := sample_request ∅ signup_text in
  pathname rq = "/api/track"
  ∧ serve sample_parse sample_schemas sample_validateEvent sample_world
      "2025-01-01T00:00:00.000Z" rq
    = (Response 500 InternalValidationError, []).
Proof.
  intros rq.
  assert (Hpath : pathname rq = "/api/track") by reflexivity.
  split; [exact Hpath|].
  destruct (no_request_reaches_the_route sample_parse sample_schemas
              sample_validateEvent sample_world "2025-01-01T00:00:00.000Z"
              rq Hpath) as (resp & -> & Hgate & _).
  f_equal. by injection Hgate as <-.
Defined.

(** ** How provider answers are counted *)

(** X7.  A provider call counts as a success exactly when the provider
    answered with a status from 200 to 299; any other status and any
    network failure count as a failure. *)
Theorem provider_call_succeeds_on_2xx_only
    (w : world) (provider : string) (call : provider_request) :
  let result := outcome (fetch_catch w provider call) in
  (is_success result = true
   ↔ ∃ code, fetch w call = Responds code ∧ (200 ≤ code ≤ 299)%Z)
  ∧ is_failure result = negb (is_success result).
Proof.
  intros result. split; [|apply is_failure_negb].
  unfold result, fetch_catch. destruct (fetch w call) as [code|error]; simpl.
  - rewrite andb_true_iff, !Z.leb_le. split.
    + intros [??]. exists code. split; [done|lia].
    + intros (code' & [= <-] & ?). lia.
  - split; [discriminate|]. by intros (code & [=] & _).
Qed.

(** X8.  The reported number of successes is the number of issued calls
    whose provider answered 2xx; when every provider does, nothing is
    reported as failed and the successes equal the providers attempted. *)
Theorem successes_count_delivered_calls
    (w : world) (event : string) (properties : jsval) (validated : bool) :
  let promises := trackingPromises w event properties validated in
  let r := report promises in
  succeeded r
    = length (filter (λ p, delivered (fetch w (issued p)) = true) promises)
  ∧ ((∀ call, delivered (fetch w call) = true) →
     succeeded r = attempted r ∧ failed r = []).
Proof.
  intros promises r.
  assert (Hcount : succeeded r
    = length (filter (λ p, delivered (fetch w (issued p)) = true) promises)).
  { unfold r, report, allSettled; simpl.
    assert (Hall : Forall (λ p, is_success (outcome p)
                                = delivered (fetch w (issued p))) promises).
    { apply Forall_forall. intros p Hp.
      by apply (trackingPromises_success w event properties validated). }
    clearbody promises. clear r.
    induction Hall as [|p promises Hp _ IH]; [done|].
    rewrite fmap_cons, !filter_cons, <- Hp.
    destruct (is_success (outcome p)); repeat case_decide; simpl; congruence. }
  split; [exact Hcount|].
  intros Hall.
  assert (Hs : succeeded r = attempted r).
  { rewrite Hcount. unfold r, report; simpl. f_equal.
    clear Hcount. clearbody promises. clear r.
    induction promises as [|p promises IH]; [done|].
    rewrite filter_cons. case_decide; [by rewrite IH|].
    by rewrite Hall in *. }
  split; [exact Hs|].
  apply length_zero_iff_nil.
  assert (Hsum : succeeded r + length (failed r) = attempted r).
  { unfold r, report, allSettled; simpl.
    rewrite successes_failures_partition. by rewrite length_fmap. }
  lia.
Qed.

Lemma successes_count_delivered_calls_witness :
  let r := report (trackingPromises healthy_world "pageview" JUndefined false) in
  (∀ call, delivered (fetch healthy_world call) = true)
  ∧ succeeded r = 2 ∧ failed r = [].
Proof.
  intros r.
  assert (Hall : ∀ call, delivered (fetch healthy_world call) = true)
    by reflexivity.
  split; [exact Hall|].
  destruct (successes_count_delivered_calls
              healthy_world "pageview" JUndefined false) as [_ H].
  destruct (H Hall) as [Hs Hf].
  split; [|exact Hf].
  unfold r. rewrite Hs. reflexivity.
Defined.

(** ** The GA4 event name *)

Lemma ga4_name_length (event : string) :
  String.length (ga4_name event) = String.length event.
Proof. induction event as [|c rest IH]; simpl; congruence. Qed.

Lemma ga4_name_clean (event : string) :
  Forall (λ c, is_word_char c = true) (String.list_ascii_of_string event) →
  ga4_name event = event.
Proof.
  induction event as [|c rest IH]; [done|]. simpl.
  intros [Hc Hrest]%Forall_cons. by rewrite Hc, IH.
Qed.

(** X9.  Sanitising an event name for GA4 keeps its length, leaves a name
    made of letters, digits and underscores as it is and changes every
    other name, and sanitising twice is the same as sanitising once. *)
Theorem ga4_name_idempotent (event : string) :
  String.length (ga4_name event) = String.length event
  ∧ ga4_name (ga4_name event) = ga4_name event
  ∧ (ga4_name event = event
     ↔ Forall (λ c, is_word_char c = true)
              (String.list_ascii_of_string event)).
Proof.
  split; [apply ga4_name_length|]. split.
  - apply ga4_name_clean, ga4_name_word_chars.
  - split; [|apply ga4_name_clean].
    intros <-. apply ga4_name_word_chars.
Qed.

(** ** The GA4 client id *)

(** X10.  The GA4 call always carries a client id: the [userId] property
    of the input when that is truthy, and the string anonymous otherwise
    (no properties, no [userId], or an empty, zero, false or null one). *)
Theorem ga4_client_id_falls_back_to_anonymous
    (w : world) (event : string) (properties : jsval) (validated : bool)
    (p : promise) (client_id : jsval) (events : list ga4_event) :
  p ∈ trackingPromises w event properties validated →
  payload (issued p) = Collect client_id events →
  truthy client_id = true
  ∧ client_id
    = if truthy (get_member_opt properties "userId")
      then get_member_opt properties "userId"
      else JStr "anonymous".
Proof.
  intros Hp Hpayload.
  destruct (trackingPromises_issued _ _ _ _ _ Hp) as [H|H];
    rewrite H in Hpayload; [discriminate|].
  injection Hpayload as <- _. unfold js_or.
  by destruct (truthy (get_member_opt properties "userId")) eqn:Huser.
Qed.

Lemma ga4_client_id_falls_back_to_anonymous_witness :
  let enhanced := enhancedPayload tagged_properties false (sample_clock 0) in
  let p := fetch_catch sample_world "ga4"
             (ga4_request sample_env "pageview" tagged_properties enhanced) in
  p ∈ trackingPromises sample_world "pageview" tagged_properties false
  ∧ payload (issued p)
    = Collect (JStr "u-17") [Ga4Event "pageview" enhanced]
  ∧ truthy (JStr "u-17") = true.
Proof.
  intros enhanced p.
  assert (Hp : p ∈ trackingPromises sample_world "pageview"
                     tagged_properties false).
  { unfold trackingPromises.
    change (posthog_enabled (env sample_world)) with true.
    change (ga4_enabled (env sample_world)) with true.
    apply elem_of_app. right. apply list_elem_of_singleton. reflexivity. }
  assert (Hpayload : payload (issued p)
                     = Collect (JStr "u-17") [Ga4Event "pageview" enhanced])
    by reflexivity.
  split; [exact Hp|]. split; [exact Hpayload|].
  exact (proj1 (ga4_client_id_falls_back_to_anonymous
                  sample_world "pageview" tagged_properties false p
                  _ _ Hp Hpayload)).
Defined.

(** ** Health and dispatch read the same configuration *)

Lemma posthog_enabled_credential (env : environment) :
  posthog_enabled env = true ↔ credential_set env posthog_key.
Proof. apply env_truthy_credential_set. Qed.

Lemma ga4_enabled_credentials (env : environment) :
  ga4_enabled env = true
  ↔ credential_set env ga4_id ∧ credential_set env ga4_secret.
Proof.
  unfold ga4_enabled.
  by rewrite andb_true_iff, !env_truthy_credential_set.
Qed.

(** X11.  The health endpoint always answers 200 and reports a provider
    as configured exactly when a dispatch would call it: PostHog when its
    key is present, GA4 when both the measurement id and the API secret
    are; the number of providers it reports equals the number a dispatch
    attempts. *)
Theorem health_reports_what_dispatch_attempts
    (w : world) (event : string) (properties : jsval) (validated : bool) :
  ∃ posthog ga4,
    GET w = Response 200 (Health posthog ga4 (clock w 0))
    ∧ (posthog = true ↔ credential_set (env w) posthog_key)
    ∧ (ga4 = true
       ↔ credential_set (env w) ga4_id ∧ credential_set (env w) ga4_secret)
    ∧ attempted (report (trackingPromises w event properties validated))
      = Nat.b2n posthog + Nat.b2n ga4.
Proof.
  exists (posthog_enabled (env w)), (ga4_enabled (env w)).
  split; [reflexivity|].
  split; [apply posthog_enabled_credential|].
  split; [apply ga4_enabled_credentials|].
  simpl. rewrite trackingPromises_length. unfold enabled_providers.
  by destruct (posthog_enabled (env w)), (ga4_enabled (env w)).
Qed.

(** GA4 with its measurement id but without its secret is reported as not
    configured and is not called. *)
Example ga4_needs_both_credentials :
  GET partial_world = Response 200 (Health false false (sample_clock 0))
  ∧ trackingPromises partial_world "pageview" JUndefined false = [].
Proof. split; reflexivity. Qed.

(** * The client SDK *)

Lemma track_effects (rt : Analytics.runtime) (event : string) (properties : jsval) :
  let bag :=
    <["timestamp" := JStr (Analytics.now rt)]>
      (<["$lib_version" := JStr "0.1.0"]> (own_properties properties)) in
  snd (Analytics.track rt event properties)
  = match Analytics.window rt with
    | Some _ => [Analytics.Posthog (Analytics.posthog_capture event bag)]
    | None =>
        [Analytics.Fetch
           (Analytics.ApiCall "/api/track" "POST" "application/json"
              (Analytics.Event event bag))]
    end.
Proof.
  unfold Analytics.track. destruct (Analytics.window rt); [reflexivity|].
  simpl. destruct (Analytics.fetch_api rt _) as [code text|error];
    [destruct (Analytics.response_ok code)|]; reflexivity.
Qed.

(** X12.  [track] makes exactly one call, carrying the event name it was
    given: on a page a [posthog.capture], with the result "client" and no
    request to the API whatever the API would answer; elsewhere a POST to
    /api/track and no call on the PostHog client. *)
Theorem track_makes_one_call
    (rt : Analytics.runtime) (event : string) (properties : jsval) :
  ∃ call,
    snd (Analytics.track rt event properties) = [call]
    ∧ Analytics.tracked_event call = Some event
    ∧ match Analytics.window rt with
      | Some _ =>
          fst (Analytics.track rt event properties) = Analytics.Success "client"
          ∧ ∃ bag, call = Analytics.Posthog (Analytics.posthog_capture event bag)
      | None =>
          ∃ request,
            call = Analytics.Fetch request
            ∧ Analytics.api_url request = "/api/track"
            ∧ Analytics.api_method request = "POST"
      end.
Proof.
  rewrite track_effects. unfold Analytics.track.
  destruct (Analytics.window rt); eexists; (split; [reflexivity|]);
    (split; [reflexivity|]); eauto.
Qed.

(** X13.  Off the page, [track] reports success exactly when the API
    answered with a 2xx status; a rejected request and any other status
    give a failure, which for a status carries "Tracking failed: " and the
    status text.  It never reports the method "client". *)
Theorem track_on_server_follows_api_status
    (rt : Analytics.runtime) (event : string) (properties : jsval) :
  Analytics.window rt = None →
  let result := fst (Analytics.track rt event properties) in
  (result = Analytics.Success "server"
   ↔ ∃ request code text,
       snd (Analytics.track rt event properties) = [Analytics.Fetch request]
       ∧ Analytics.fetch_api rt request = Analytics.ApiResponds code text
       ∧ (200 ≤ code ≤ 299)%Z)
  ∧ (∀ method, result = Analytics.Success method → method = "server")
  ∧ (∀ request code text,
       snd (Analytics.track rt event properties) = [Analytics.Fetch request] →
       Analytics.fetch_api rt request = Analytics.ApiResponds code text →
       ¬ (200 ≤ code ≤ 299)%Z →
       result = Analytics.Failure ("Tracking failed: " +:+ text)).
Proof.
  intros Hwindow result.
  pose proof (track_effects rt event properties) as Heffects.
  unfold result. rewrite Heffects. clear Heffects.
  unfold Analytics.track. rewrite Hwindow. simpl.
  set (request := Analytics.ApiCall _ _ _ _).
  assert (Hok : ∀ code, Analytics.response_ok code = true ↔ (200 ≤ code ≤ 299)%Z).
  { intros code. unfold Analytics.response_ok.
    rewrite andb_true_iff, !Z.leb_le. done. }
  destruct (Analytics.fetch_api rt request) as [code text|error] eqn:Hfetch.
  - destruct (Analytics.response_ok code) eqn:Hcode; simpl.
    + apply Hok in Hcode. split; [|split].
      * split; [|done]. intros _. exists request, code, text. done.
      * by intros method [= <-].
      * intros ? code' text' [= <-]. rewrite Hfetch. intros [= <- <-]. done.
    + split; [|split].
      * split; [discriminate|].
        intros (? & code' & text' & [= <-] & Hfetch' & Hrange).
        rewrite Hfetch in Hfetch'. injection Hfetch' as <- <-.
        apply Hok in Hrange. congruence.
      * discriminate.
      * intros ? code' text' [= <-]. rewrite Hfetch. by intros [= <- <-].
  - simpl. split; [|split].
    + split; [discriminate|].
      intros (? & code' & text' & [= <-] & Hfetch' & _). congruence.
    + discriminate.
    + intros ? code' text' [= <-]. rewrite Hfetch. discriminate.
Qed.

Lemma track_on_server_follows_api_status_witness :
  let rt := sample_worker 400 "Bad Request" in
  Analytics.window rt = None
  ∧ fst (Analytics.track rt "pageview" JUndefined)
    = Analytics.Failure "Tracking failed: Bad Request".
Proof.
  intros rt.
  assert (Hwindow : Analytics.window rt = None) by reflexivity.
  split; [exact Hwindow|].
  destruct (track_on_server_follows_api_status rt "pageview" JUndefined Hwindow)
    as (_ & _ & Hfailure).
  eapply (Hfailure _ 400%Z "Bad Request"); [reflexivity|reflexivity|lia].
Defined.

(** X14.  Whatever [track] sends carries the properties it was given,
    except that [$lib_version] and [timestamp] are set by the SDK and
    replace input properties of those names. *)
Theorem track_adds_version_and_timestamp
    (rt : Analytics.runtime) (event : string) (properties : jsval)
    (call : Analytics.effect) :
  call ∈ snd (Analytics.track rt event properties) →
  ∃ bag,
    Analytics.tracked_properties call = Some bag
    ∧ (∀ k, k ∉ Analytics.sdk_keys → bag !! k = own_properties properties !! k)
    ∧ bag !! "$lib_version" = Some (JStr "0.1.0")
    ∧ bag !! "timestamp" = Some (JStr (Analytics.now rt)).
Proof.
  rewrite track_effects.
  intros Hcall. eexists. split.
  { destruct (Analytics.window rt);
      apply list_elem_of_singleton in Hcall as ->; reflexivity. }
  split; [|split].
  - intros k Hk. unfold Analytics.sdk_keys in Hk.
    rewrite !not_elem_of_cons in Hk. destruct Hk as (? & ? & _).
    by rewrite !lookup_insert_ne.
  - by rewrite lookup_insert_ne, lookup_insert_eq.
  - by rewrite lookup_insert_eq.
Qed.

Lemma track_adds_version_and_timestamp_witness :
  let properties := JObj {["timestamp" := JStr "yesterday"]} in
  let bag :=
    <["timestamp" := JStr "2025-01-01T00:00:00.000Z"]>
      (<["$lib_version" := JStr "0.1.0"]> (own_properties properties)) in
  let call := Analytics.Posthog (Analytics.posthog_capture "pageview" bag) in
  call ∈ snd (Analytics.track sample_page "pageview" properties)
  ∧ ∃ sent,
      Analytics.tracked_properties call = Some sent
      ∧ sent !! "timestamp" = Some (JStr "2025-01-01T00:00:00.000Z").
Proof.
  intros properties bag call.
  assert (Hcall : call ∈ snd (Analytics.track sample_page "pageview" properties)).
  { apply list_elem_of_singleton. reflexivity. }
  split; [exact Hcall|].
  destruct (track_adds_version_and_timestamp sample_page "pageview"
              properties call Hcall) as (sent & Hsent & _ & _ & Htime).
  exists sent. split; [exact Hsent | exact Htime].
Defined.

(** X15.  [identify] tracks the event user_identified with the traits as
    properties.  The [userId] it tracks is the one among the traits when
    the traits have one, and the argument otherwise, while on a page
    [posthog.identify] is first called with the argument itself. *)
Theorem identify_traits_override_user_id
    (rt : Analytics.runtime) (userId : string) (traits : jsval) :
  ∃ tracked bag,
    snd (Analytics.identify rt userId traits)
    = match Analytics.window rt with
      | Some _ => [Analytics.Posthog (Analytics.posthog_identify userId traits);
                   tracked]
      | None => [tracked]
      end
    ∧ Analytics.tracked_event tracked = Some "user_identified"
    ∧ Analytics.tracked_properties tracked = Some bag
    ∧ bag !! "userId"
      = Some (default (JStr userId) (own_properties traits !! "userId"))
    ∧ ∀ k, k ∉ "userId" :: Analytics.sdk_keys →
           bag !! k = own_properties traits !! k.
Proof.
  unfold Analytics.identify. rewrite track_effects.
  set (bag := <["timestamp" := _]> _).
  assert (Hbag : bag !! "userId"
                 = Some (default (JStr userId) (own_properties traits !! "userId"))
                 ∧ ∀ k, k ∉ "userId" :: Analytics.sdk_keys →
                        bag !! k = own_properties traits !! k).
  { unfold bag. split.
    - rewrite !lookup_insert_ne by done. simpl.
      rewrite lookup_union, lookup_singleton_eq.
      by destruct (own_properties traits !! "userId").
    - intros k Hk. unfold Analytics.sdk_keys in Hk.
      rewrite !not_elem_of_cons in Hk. destruct Hk as (? & ? & ? & _).
      rewrite !lookup_insert_ne by done. simpl.
      rewrite lookup_union, lookup_singleton_ne by done.
      by destruct (own_properties traits !! k). }
  destruct (Analytics.window rt); simpl; do 2 eexists;
    (split; [reflexivity|]); (split; [reflexivity|]);
    (split; [reflexivity|]); exact Hbag.
Qed.

(** X16.  Off the page [pageview] throws before anything is tracked.  On
    a page it captures the event pageview with the document's referrer
    and with the path it was given, or the path of the location when it
    was given none or an empty one. *)
Theorem pageview_needs_a_page (rt : Analytics.runtime) (path : option string) :
  match Analytics.window rt with
  | None => ∃ error, Analytics.pageview rt path = inl error
  | Some page =>
      ∃ bag,
        Analytics.pageview rt path
        = inr (Analytics.Success "client",
               [Analytics.Posthog (Analytics.posthog_capture "pageview" bag)])
        ∧ bag !! "referrer" = Some (JStr (Analytics.document_referrer page))
        ∧ bag !! "path"
          = Some (JStr match path with
                       | Some p =>
                           if String.eqb p ""
                           then Analytics.location_pathname page else p
                       | None => Analytics.location_pathname page
                       end)
  end.
Proof.
  unfold Analytics.pageview, Analytics.pageview_url, Analytics.track.
  destruct (Analytics.window rt) as [page|]; [|eauto].
  eexists. split; [reflexivity|]. simpl. split.
  - rewrite !lookup_insert_ne by done. by rewrite lookup_insert_eq.
  - rewrite !lookup_insert_ne by done. by rewrite lookup_singleton_eq.
Qed.

(** [reset] tracks the event user_reset with no properties but the
    two the SDK adds, after clearing the PostHog client when on a page. *)
Theorem reset_tracks_bare_event (rt : Analytics.runtime) :
  ∃ tracked bag,
    snd (Analytics.reset rt)
    = match Analytics.window rt with
      | Some _ => [Analytics.Posthog Analytics.posthog_reset; tracked]
      | None => [tracked]
      end
    ∧ Analytics.tracked_event tracked = Some "user_reset"
    ∧ Analytics.tracked_properties tracked = Some bag
    ∧ dom bag = list_to_set (C := gset string) Analytics.sdk_keys.
Proof.
  unfold Analytics.reset. rewrite track_effects.
  assert (Hdom : dom (<["timestamp" := JStr (Analytics.now rt)]>
                        (<["$lib_version" := JStr "0.1.0"]>
                           (own_properties JUndefined)))
                 = list_to_set (C := gset string) Analytics.sdk_keys).
  { simpl. rewrite !dom_insert_L, dom_empty_L. set_solver. }
  destruct (Analytics.window rt); simpl; do 2 eexists;
    (split; [reflexivity|]); (split; [reflexivity|]);
    (split; [reflexivity|]); exact Hdom.
Qed.

(** * The doctor *)

Lemma doctor_count_app (s : Doctor.status) (l1 l2 : list Doctor.DoctorResult) :
  Doctor.count s (l1 ++ l2) = Doctor.count s l1 + Doctor.count s l2.
Proof. unfold Doctor.count. by rewrite filter_app, length_app. Qed.

Lemma doctor_count_singleton (s : Doctor.status) (r : Doctor.DoctorResult) :
  Doctor.count s [r] = if decide (Doctor.outcome r = s) then 1 else 0.
Proof.
  unfold Doctor.count. rewrite filter_cons, filter_nil. by case_decide.
Qed.

Lemma doctor_count_zero (s : Doctor.status) (l : list Doctor.DoctorResult) :
  Doctor.count s l = 0 ↔ Forall (λ r, Doctor.outcome r ≠ s) l.
Proof.
  induction l as [|r l IH]; [by split|].
  change (r :: l) with ([r] ++ l).
  rewrite doctor_count_app, doctor_count_singleton, Forall_app, Forall_singleton.
  case_decide; simpl; [split; [lia|tauto]|tauto].
Qed.

(** A loop whose turns each record one result, a pass when the turn is
    good and a failure otherwise, and clear the flag on a failure. *)
Lemma doctor_loop {A : Type}
    (step : bool * list Doctor.DoctorResult → A → bool * list Doctor.DoctorResult)
    (label : A → string) (good : A → Prop) :
  (∀ x, ∃ r,
     Doctor.test r = label x
     ∧ Doctor.outcome r ≠ Doctor.warn
     ∧ (Doctor.outcome r = Doctor.pass ↔ good x)
     ∧ ∀ flag results,
         step (flag, results) x
         = (flag && bool_decide (Doctor.outcome r = Doctor.pass),
            results ++ [r])) →
  ∀ l, ∃ added,
    Doctor.test <$> added = label <$> l
    ∧ Forall (λ r, Doctor.outcome r ≠ Doctor.warn) added
    ∧ (Doctor.count Doctor.fail added = 0 ↔ Forall good l)
    ∧ ∀ flag results,
        foldl step (flag, results) l
        = (flag && bool_decide (Doctor.count Doctor.fail added = 0),
           results ++ added).
Proof.
  intros Hstep l. induction l as [|x l IH] using rev_ind.
  - exists []. split; [done|]. split; [done|]. split; [done|].
    intros flag results. simpl. by rewrite andb_true_r, app_nil_r.
  - destruct IH as (added & Htests & Hwarn & Hgood & Hfold).
    destruct (Hstep x) as (r & Htest & Hr & Hpass & Hx).
    assert (Hcount : Doctor.count Doctor.fail (added ++ [r]) = 0
                     ↔ Doctor.count Doctor.fail added = 0
                       ∧ Doctor.outcome r = Doctor.pass).
    { rewrite doctor_count_app, doctor_count_singleton.
      destruct (decide (Doctor.outcome r = Doctor.fail)) as [Hfail|Hfail].
      - split; [intros ?; exfalso; lia|]. intros [_ Hp]. congruence.
      - split; [|intros [? _]; lia].
        intros ?. split; [lia|]. by destruct (Doctor.outcome r). }
    exists (added ++ [r]). split; [|split; [|split]].
    + rewrite !fmap_app, Htests. simpl. by rewrite Htest.
    + apply Forall_app. split; [done|]. by apply Forall_singleton.
    + rewrite Hcount, Forall_app, Forall_singleton. tauto.
    + intros flag results. rewrite foldl_app. simpl. rewrite Hfold, Hx.
      rewrite app_assoc. f_equal. rewrite <- andb_assoc. f_equal.
      repeat case_bool_decide; try done; tauto.
Qed.

(** One turn recorded a result with outcome [o]: what is left to show is
    when that is a pass. *)
Ltac recorded o :=
  eexists (Doctor.Result _ o _ _);
  split; [reflexivity|]; split; [done|];
  split; [|intros flag results; simpl; try (destruct flag; reflexivity)].

Lemma schema_case_step (w : Doctor.world) (testCase : Doctor.test_case) :
  ∃ r,
    Doctor.test r = "Schema: " +:+ Doctor.name testCase
    ∧ Doctor.outcome r ≠ Doctor.warn
    ∧ (Doctor.outcome r = Doctor.pass
       ↔ ∃ response data,
           Doctor.validation w (Doctor.payload testCase)
             = Doctor.Replies response
           ∧ Doctor.json response = inr data
           ∧ Doctor.ok response = Doctor.shouldPass testCase)
    ∧ ∀ flag results,
        Doctor.schema_case w (flag, results) testCase
        = (flag && bool_decide (Doctor.outcome r = Doctor.pass),
           results ++ [r]).
Proof.
  unfold Doctor.schema_case, Doctor.addResult.
  destruct (Doctor.validation w (Doctor.payload testCase)) as [response|error].
  - destruct (Doctor.json response) as [error|data] eqn:Hjson; simpl.
    + recorded Doctor.fail. split; [discriminate|].
      intros (? & ? & [= <-] & ? & _). congruence.
    + destruct (bool_decide (Doctor.ok response = Doctor.shouldPass testCase))
        eqn:Hok.
      * recorded Doctor.pass; try (rewrite ?Hok; by destruct flag).
        split; [|done]. intros _. exists response, data.
        by apply bool_decide_eq_true in Hok.
      * recorded Doctor.fail; try (rewrite ?Hok; by destruct flag).
        split; [discriminate|]. intros (? & ? & [= <-] & _ & ?).
        by apply bool_decide_eq_false in Hok.
  - recorded Doctor.fail. split; [discriminate|].
    by intros (? & ? & [=] & _).
Qed.

Lemma flow_case_step (w : Doctor.world) (testEvent : Doctor.TestEvent) :
  ∃ r,
    Doctor.test r = "Event: " +:+ Doctor.event_name testEvent
    ∧ Doctor.outcome r ≠ Doctor.warn
    ∧ (Doctor.outcome r = Doctor.pass
       ↔ ∃ response data,
           snd (Doctor.flow w (Doctor.flow_body testEvent))
             = Doctor.Replies response
           ∧ Doctor.ok response = true
           ∧ Doctor.json response = inr data)
    ∧ ∀ flag results,
        Doctor.flow_case w (flag, results) testEvent
        = (flag && bool_decide (Doctor.outcome r = Doctor.pass),
           results ++ [r]).
Proof.
  unfold Doctor.flow_case, Doctor.addResult.
  destruct (Doctor.flow w (Doctor.flow_body testEvent))
    as [[startTime endTime] [response|error]].
  - destruct (Doctor.ok response) eqn:Hok.
    + destruct (Doctor.json response) as [error|data] eqn:Hjson.
      * recorded Doctor.fail; try (rewrite ?Hok, ?Hjson; by destruct flag).
        split; [discriminate|].
        intros (? & ? & [= <-] & _ & ?). congruence.
      * recorded Doctor.pass; try (rewrite ?Hok, ?Hjson; by destruct flag).
        split; [|done]. intros _. by exists response, data.
    + recorded Doctor.fail; try (rewrite ?Hok; by destruct flag).
      split; [discriminate|].
      intros (? & ? & [= <-] & ? & _). congruence.
  - recorded Doctor.fail. split; [discriminate|].
    by intros (? & ? & [=] & _).
Qed.

Lemma checkAPIHealth_step (w : Doctor.world) :
  ∃ r,
    Doctor.test r = "API Health"
    ∧ Doctor.outcome r ≠ Doctor.warn
    ∧ (Doctor.outcome r = Doctor.pass
       ↔ ∃ response data,
           Doctor.health w = Doctor.Replies response
           ∧ Doctor.ok response = true
           ∧ Doctor.json response = inr data
           ∧ data ≠ JNull ∧ data ≠ JUndefined)
    ∧ ∀ results,
        Doctor.checkAPIHealth w results
        = (bool_decide (Doctor.outcome r = Doctor.pass), results ++ [r]).
Proof.
  unfold Doctor.checkAPIHealth, Doctor.addResult.
  destruct (Doctor.health w) as [response|error].
  - destruct (Doctor.ok response) eqn:Hok.
    + destruct (Doctor.json response) as [error|data] eqn:Hjson; simpl.
      * eexists (Doctor.Result _ Doctor.fail _ _).
        split; [reflexivity|]. split; [done|]. split; [|reflexivity].
        split; [discriminate|]. intros (? & ? & [= <-] & _ & ? & _).
        congruence.
      * destruct (get_member data "status") as [error|reported] eqn:Hstatus;
          simpl.
        -- eexists (Doctor.Result _ Doctor.fail _ _).
           split; [reflexivity|]. split; [done|]. split; [|reflexivity].
           split; [discriminate|].
           intros (? & data' & [= <-] & _ & Hjson' & Hnull & Hundef).
           rewrite Hjson in Hjson'. injection Hjson' as <-.
           by destruct data.
        -- eexists (Doctor.Result _ Doctor.pass _ _).
           split; [reflexivity|]. split; [done|]. split; [|reflexivity].
           split; [|done]. intros _. exists response, data.
           repeat split; try done; by intros ->.
    + eexists (Doctor.Result _ Doctor.fail _ _).
      split; [reflexivity|]. split; [done|]. split; [|reflexivity].
      split; [discriminate|]. intros (? & ? & [= <-] & ? & _). congruence.
  - eexists (Doctor.Result _ Doctor.fail _ _).
    split; [reflexivity|]. split; [done|]. split; [|reflexivity].
    split; [discriminate|]. by intros (? & ? & [=] & _).
Qed.

Lemma checkBrowserTracking_step (w : Doctor.world) :
  ∃ added,
    (Doctor.count Doctor.fail added = 0
     ↔ ∃ observed, Doctor.session w = Doctor.Finishes observed)
    ∧ 1 ≤ length added ≤ 2
    ∧ ∀ results,
        Doctor.checkBrowserTracking w results
        = (bool_decide (Doctor.count Doctor.fail added = 0), results ++ added).
Proof.
  unfold Doctor.checkBrowserTracking, Doctor.addResult.
  destruct (Doctor.session w) as [error|error|error|observed].
  - eexists [Doctor.Result _ Doctor.fail _ _]. split; [|split].
    3: reflexivity. 2: simpl; lia.
    split; [discriminate|]. by intros [? [=]].
  - eexists [Doctor.Result _ Doctor.fail _ _]. split; [|split].
    3: reflexivity. 2: simpl; lia.
    split; [discriminate|]. by intros [? [=]].
  - eexists [Doctor.Result _ Doctor.pass _ _; Doctor.Result _ Doctor.fail _ _].
    split; [|split].
    3: intros results; rewrite <- app_assoc; reflexivity. 2: simpl; lia.
    split; [discriminate|]. by intros [? [=]].
  - destruct (0 <? length _)%nat.
    + eexists [Doctor.Result _ Doctor.pass _ _; Doctor.Result _ Doctor.pass _ _].
      split; [|split].
      3: intros results; rewrite <- app_assoc; reflexivity. 2: simpl; lia.
      split; [eauto|done].
    + eexists [Doctor.Result _ Doctor.pass _ _; Doctor.Result _ Doctor.warn _ _].
      split; [|split].
      3: intros results; rewrite <- app_assoc; reflexivity. 2: simpl; lia.
      split; [eauto|done].
Qed.

Lemma checkEnvironment_results (env : environment)
    (results : list Doctor.DoctorResult) :
  ∃ added,
    Doctor.checkEnvironment env results = results ++ added
    ∧ Doctor.test <$> added
      = [ "Environment: NEXT_PUBLIC_POSTHOG_KEY";
          "Environment: NEXT_PUBLIC_GA4_ID";
          "Environment: GA4_API_SECRET";
          "Environment: NEXT_PUBLIC_POSTHOG_HOST" ]
    ∧ Doctor.outcome <$> added
      = [ if env_truthy env "NEXT_PUBLIC_POSTHOG_KEY"
          then Doctor.pass else Doctor.fail;
          if env_truthy env "NEXT_PUBLIC_GA4_ID"
          then Doctor.pass else Doctor.warn;
          if env_truthy env "GA4_API_SECRET"
          then Doctor.pass else Doctor.warn;
          if env_truthy env "NEXT_PUBLIC_POSTHOG_HOST"
          then Doctor.pass else Doctor.warn ].
Proof.
  unfold Doctor.checkEnvironment, Doctor.check_required,
    Doctor.check_optional, Doctor.addResult. simpl.
  destruct (env_truthy env "NEXT_PUBLIC_POSTHOG_KEY"),
    (env_truthy env "NEXT_PUBLIC_GA4_ID"),
    (env_truthy env "GA4_API_SECRET"),
    (env_truthy env "NEXT_PUBLIC_POSTHOG_HOST");
    rewrite <- !app_assoc; simpl; eexists; (split; [reflexivity|]);
    split; reflexivity.
Qed.

Lemma doctor_run_results (w : Doctor.world) :
  ∃ health rest,
    Doctor.test health = "API Health"
    ∧ Doctor.outcome health ≠ Doctor.warn
    ∧ snd (Doctor.run w)
      = Doctor.checkEnvironment (Doctor.env w) [] ++ [health] ++ rest
    ∧ (Doctor.outcome health ≠ Doctor.pass → rest = [])
    ∧ (fst (Doctor.run w) = true ↔ Doctor.count Doctor.fail (snd (Doctor.run w)) = 0).
Proof.
  unfold Doctor.run.
  destruct (checkAPIHealth_step w) as (health & Htest & Hwarn & _ & Hhealth).
  rewrite Hhealth. exists health.
  case_bool_decide as Hpass; simpl.
  - destruct (doctor_loop (Doctor.schema_case w)
                (λ tc, "Schema: " +:+ Doctor.name tc) _
                (schema_case_step w) Doctor.testCases)
      as (schema & _ & _ & _ & Hschema).
    unfold Doctor.checkSchemaValidation. rewrite Hschema.
    destruct (checkBrowserTracking_step w) as (browser & _ & _ & Hbrowser).
    rewrite Hbrowser.
    destruct (doctor_loop (Doctor.flow_case w)
                (λ te, "Event: " +:+ Doctor.event_name te) _
                (flow_case_step w) Doctor.testEvents)
      as (flow & _ & _ & _ & Hflow).
    unfold Doctor.testEventFlow. rewrite Hflow. simpl.
    exists (schema ++ browser ++ flow).
    split; [done|]. split; [done|]. split; [by rewrite <- !app_assoc|].
    split; [done|]. apply bool_decide_eq_true.
  - exists []. split; [done|]. split; [done|]. split; [done|]. split; [done|].
    split; [discriminate|].
    rewrite !doctor_count_app, doctor_count_singleton.
    destruct (Doctor.outcome health); try done. case_decide; [lia|done].
Qed.

(** X17.  The environment check adds four results after those already
    recorded, one per variable in a fixed order.  It records a failure
    exactly when the PostHog key is missing; a missing GA4 id, GA4 secret
    or PostHog host only gives a warning each. *)
Theorem doctor_environment_check
    (env : environment) (results : list Doctor.DoctorResult) :
  ∃ added,
    Doctor.checkEnvironment env results = results ++ added
    ∧ Doctor.test <$> added
      = [ "Environment: NEXT_PUBLIC_POSTHOG_KEY";
          "Environment: NEXT_PUBLIC_GA4_ID";
          "Environment: GA4_API_SECRET";
          "Environment: NEXT_PUBLIC_POSTHOG_HOST" ]
    ∧ (Doctor.count Doctor.fail added = 0
       ↔ credential_set env "NEXT_PUBLIC_POSTHOG_KEY")
    ∧ Doctor.count Doctor.warn added
      = length (filter (λ name, env_truthy env name = false)
                       Doctor.optionalEnvVars).
Proof.
  destruct (checkEnvironment_results env results)
    as (added & Hadded & Htests & Houtcomes).
  exists added. split; [done|]. split; [done|].
  rewrite <- env_truthy_credential_set.
  assert (Hcount : ∀ s, Doctor.count s added
                        = length (filter (λ o, o = s) (Doctor.outcome <$> added))).
  { intros s. unfold Doctor.count. clear.
    induction added as [|r added IH]; [done|].
    rewrite fmap_cons, !filter_cons. repeat case_decide; simpl; congruence. }
  rewrite !Hcount, Houtcomes. unfold Doctor.optionalEnvVars.
  rewrite !filter_cons, !filter_nil.
  destruct (env_truthy env "NEXT_PUBLIC_POSTHOG_KEY"),
    (env_truthy env "NEXT_PUBLIC_GA4_ID"),
    (env_truthy env "GA4_API_SECRET"),
    (env_truthy env "NEXT_PUBLIC_POSTHOG_HOST");
    repeat case_decide; try done.
Qed.

(** X18.  The verdict of a run agrees with what it recorded: [run]
    returns true, and [main] exits with 0, exactly when no recorded
    result is a failure; warnings never change the verdict. *)
Theorem doctor_verdict_matches_results (w : Doctor.world) :
  (fst (Doctor.run w) = true
   ↔ Doctor.count Doctor.fail (snd (Doctor.run w)) = 0)
  ∧ (Doctor.main w = 0%Z ↔ fst (Doctor.run w) = true)
  ∧ (Doctor.main w = 0%Z ∨ Doctor.main w = 1%Z).
Proof.
  destruct (doctor_run_results w) as (? & ? & _ & _ & _ & _ & Hverdict).
  split; [exact Hverdict|]. unfold Doctor.main.
  destruct (fst (Doctor.run w)); split; try done; auto.
Qed.

(** X19.  Without the PostHog key in its environment the doctor fails,
    whatever the server answers and the browser does. *)
Theorem doctor_fails_without_posthog_key (w : Doctor.world) :
  env_truthy (Doctor.env w) "NEXT_PUBLIC_POSTHOG_KEY" = false →
  fst (Doctor.run w) = false ∧ Doctor.main w = 1%Z.
Proof.
  intros Hkey.
  destruct (doctor_run_results w)
    as (health & rest & _ & _ & Hresults & _ & Hverdict).
  destruct (checkEnvironment_results (Doctor.env w) [])
    as (added & Hadded & _ & Houtcomes).
  rewrite Hkey in Houtcomes.
  assert (Hfail : Doctor.count Doctor.fail (snd (Doctor.run w)) ≠ 0).
  { destruct added as [|r added]; [discriminate|].
    injection Houtcomes as Hr _.
    rewrite Hresults, Hadded.
    change (r :: added) with ([r] ++ added).
    rewrite !doctor_count_app, doctor_count_singleton, Hr.
    case_decide; [lia|done]. }
  assert (Hrun : fst (Doctor.run w) = false).
  { destruct (fst (Doctor.run w)); [|done].
    exfalso. apply Hfail. by apply Hverdict. }
  split; [exact Hrun|]. unfold Doctor.main. by rewrite Hrun.
Qed.

(** X20.  When the health check does not pass, the run stops there: it
    returns false with the four environment results and the failed
    health result, and none of the later checks is made. *)
Theorem doctor_stops_when_api_is_down (w : Doctor.world) :
  fst (Doctor.checkAPIHealth w []) = false →
  ∃ health,
    Doctor.run w
    = (false, Doctor.checkEnvironment (Doctor.env w) [] ++ [health])
    ∧ Doctor.test health = "API Health"
    ∧ Doctor.outcome health = Doctor.fail
    ∧ length (snd (Doctor.run w)) = 5.
Proof.
  intros Hdown. unfold Doctor.run.
  destruct (checkAPIHealth_step w) as (health & Htest & Hwarn & _ & Hhealth).
  rewrite Hhealth in Hdown |- *. simpl in Hdown. rewrite Hdown. simpl.
  exists health. split; [done|]. split; [done|].
  apply bool_decide_eq_false in Hdown. split.
  - by destruct (Doctor.outcome health).
  - destruct (checkEnvironment_results (Doctor.env w) [])
      as (added & -> & Htests & _).
    apply (f_equal length) in Htests. rewrite length_fmap in Htests.
    simpl in *. rewrite length_app. simpl. lia.
Qed.

(** X21.  The three figures of the summary add up: every recorded result
    is counted once, as passed, failed or warned. *)
Theorem doctor_summary_counts_every_result
    (results : list Doctor.DoctorResult) :
  let '(passed, failed, warned) := Doctor.summary results in
  passed + failed + warned = length results.
Proof.
  unfold Doctor.summary.
  induction results as [|r results IH]; [done|].
  change (r :: results) with ([r] ++ results).
  rewrite !doctor_count_app, !doctor_count_singleton, length_app. simpl.
  destruct (Doctor.outcome r); repeat case_decide; try done; lia.
Qed.

(** X22.  The schema check posts all four test cases, whatever the
    earlier ones gave, and records one result for each; it returns true
    exactly when every case was answered with readable JSON and with a
    success status where success was expected and an error status where
    failure was. *)
Theorem doctor_schema_check_compares_status
    (w : Doctor.world) (results : list Doctor.DoctorResult) :
  ∃ added,
    Doctor.checkSchemaValidation w results
    = (bool_decide (Doctor.count Doctor.fail added = 0), results ++ added)
    ∧ Doctor.test <$> added
      = [ "Schema: Valid event"; "Schema: Invalid event name";
          "Schema: Missing required field"; "Schema: Invalid enum value" ]
    ∧ (Doctor.count Doctor.fail added = 0
       ↔ ∀ testCase, testCase ∈ Doctor.testCases →
           ∃ response data,
             Doctor.validation w (Doctor.payload testCase)
               = Doctor.Replies response
             ∧ Doctor.json response = inr data
             ∧ Doctor.ok response = Doctor.shouldPass testCase).
Proof.
  destruct (doctor_loop (Doctor.schema_case w)
              (λ tc, "Schema: " +:+ Doctor.name tc) _
              (schema_case_step w) Doctor.testCases)
    as (added & Htests & _ & Hgood & Hfold).
  exists added. unfold Doctor.checkSchemaValidation.
  split; [by rewrite Hfold|]. split; [exact Htests|].
  by rewrite Hgood, Forall_forall.
Qed.

(** X23.  The event-flow check posts all three test events and records
    one result for each; it returns true exactly when every one of them
    was answered with a success status and readable JSON. *)
Theorem doctor_flow_check_needs_every_event
    (w : Doctor.world) (results : list Doctor.DoctorResult) :
  ∃ added,
    Doctor.testEventFlow w results
    = (bool_decide (Doctor.count Doctor.fail added = 0), results ++ added)
    ∧ Doctor.test <$> added
      = ["Event: pageview"; "Event: user_signed_up"; "Event: feature_used"]
    ∧ (Doctor.count Doctor.fail added = 0
       ↔ ∀ testEvent, testEvent ∈ Doctor.testEvents →
           ∃ response data,
             snd (Doctor.flow w (Doctor.flow_body testEvent))
               = Doctor.Replies response
             ∧ Doctor.ok response = true
             ∧ Doctor.json response = inr data).
Proof.
  destruct (doctor_loop (Doctor.flow_case w)
              (λ te, "Event: " +:+ Doctor.event_name te) _
              (flow_case_step w) Doctor.testEvents)
    as (added & Htests & _ & Hgood & Hfold).
  exists added. unfold Doctor.testEventFlow.
  split; [by rewrite Hfold|]. split; [exact Htests|].
  by rewrite Hgood, Forall_forall.
Qed.

(** X24.  The browser check returns true exactly when the session runs
    to its end.  Then it records no failure: the page load as passed, and
    the tracking requests as passed when the page made a request to
    /api/track or to posthog.com and as a warning when it made none. *)
Theorem doctor_browser_check_warns_without_requests
    (w : Doctor.world) (results : list Doctor.DoctorResult) :
  (fst (Doctor.checkBrowserTracking w results) = true
   ↔ ∃ observed, Doctor.session w = Doctor.Finishes observed)
  ∧ ∀ observed,
      Doctor.session w = Doctor.Finishes observed →
      ∃ load requests,
        snd (Doctor.checkBrowserTracking w results)
          = results ++ [load; requests]
        ∧ Doctor.outcome load = Doctor.pass
        ∧ Doctor.outcome requests
          = if bool_decide (Exists (λ r, Doctor.is_tracking_request r = true)
                                   observed)
            then Doctor.pass else Doctor.warn.
Proof.
  split.
  - destruct (checkBrowserTracking_step w) as (added & Hiff & _ & Hcheck).
    rewrite Hcheck. simpl. by rewrite bool_decide_eq_true.
  - intros observed Hsession.
    unfold Doctor.checkBrowserTracking, Doctor.addResult. rewrite Hsession.
    set (requests := filter _ observed).
    assert (Hany : (0 <? length requests)%nat
                   = bool_decide (Exists (λ r, Doctor.is_tracking_request r = true)
                                         observed)).
    { destruct requests as [|r requests'] eqn:Hrequests; simpl.
      - symmetry. apply bool_decide_eq_false. rewrite Exists_exists.
        intros (r & Hr & Htracking).
        assert (r ∈ requests) as Hin
          by (unfold requests; by apply list_elem_of_filter).
        rewrite Hrequests in Hin. by apply elem_of_nil in Hin.
      - symmetry. apply bool_decide_eq_true. rewrite Exists_exists.
        assert (r ∈ requests) as Hin by (rewrite Hrequests; left).
        apply list_elem_of_filter in Hin as [??]. eauto. }
    rewrite <- Hany.
    destruct (0 <? length requests)%nat; simpl;
      do 2 eexists; rewrite <- app_assoc; (split; [reflexivity|]); done.
Qed.

Lemma doctor_browser_check_warns_without_requests_witness :
  let w := sample_doctor doctor_env health_answer in
  let observed :=
    [Doctor.PageRequest "http://localhost:3000/api/track" "POST"
       (JStr "pageview")] in
  Doctor.session w = Doctor.Finishes observed
  ∧ Doctor.outcome <$> snd (Doctor.checkBrowserTracking w [])
    = [Doctor.pass; Doctor.pass].
Proof.
  intros w observed.
  assert (Hsession : Doctor.session w = Doctor.Finishes observed)
    by reflexivity.
  split; [exact Hsession|].
  destruct (doctor_browser_check_warns_without_requests w []) as [_ H].
  destruct (H observed Hsession) as (load & requests & -> & Hload & Hrequests).
  simpl. rewrite Hload, Hrequests. reflexivity.
Defined.

Lemma doctor_fails_without_posthog_key_witness :
  let w := sample_doctor ∅ health_answer in
  env_truthy (Doctor.env w) "NEXT_PUBLIC_POSTHOG_KEY" = false
  ∧ fst (Doctor.run w) = false ∧ Doctor.main w = 1%Z.
Proof.
  intros w.
  assert (Hkey : env_truthy (Doctor.env w) "NEXT_PUBLIC_POSTHOG_KEY" = false)
    by reflexivity.
  split; [exact Hkey|].
  exact (doctor_fails_without_posthog_key w Hkey).
Defined.

Lemma doctor_stops_when_api_is_down_witness :
  let w := sample_doctor doctor_env (Doctor.Rejects (JsError "fetch failed")) in
  fst (Doctor.checkAPIHealth w []) = false
  ∧ ∃ health,
      Doctor.run w
      = (false, Doctor.checkEnvironment (Doctor.env w) [] ++ [health])
      ∧ Doctor.test health = "API Health"
      ∧ Doctor.outcome health = Doctor.fail
      ∧ length (snd (Doctor.run w)) = 5.
Proof.
  intros w.
  assert (Hdown : fst (Doctor.checkAPIHealth w []) = false) by reflexivity.
  split; [exact Hdown|].
  exact (doctor_stops_when_api_is_down w Hdown).
Defined.

(** * The doctor in front of the server *)

Section DoctorAgainstServer.

Variable JSON_parse : string → throws jsval.
Variable JSON_stringify : jsval → string.
Variable eventSchemas : schema_registry.
Variable validateEvent : string → jsval → throws unit.
Variable reason : Z → string.

Let server (w : world) (now : string) (rq : request) : response :=
  fst (serve JSON_parse eventSchemas validateEvent w now rq).

(** Behind the gate no request to /api/track gets a success status. *)
Lemma server_answers_400_or_500 (w : world) (now : string) (rq : request) :
  pathname rq = "/api/track" →
  server w now rq
    = match validateTrackingRequest JSON_parse eventSchemas validateEvent
              rq now with
      | Respond resp => resp
      | Next _ => server w now rq
      end
  ∧ (status (server w now rq) = 400%Z ∨ status (server w now rq) = 500%Z).
Proof.
  intros Hpath. unfold server, serve.
  rewrite (middleware_intercepts_track _ _ _ rq now Hpath).
  destruct (gate_answer_status JSON_parse eventSchemas validateEvent rq now)
    as (resp & -> & Hstatus).
  done.
Qed.

Lemma not_ok_400_or_500 (code : Z) (text : string) (data : throws jsval) :
  code = 400%Z ∨ code = 500%Z →
  Doctor.ok (Doctor.Reply code text data) = false.
Proof. by intros [-> | ->]. Qed.

(** X25.  Behind the middleware the doctor's health check fails: its GET
    of /api/track is answered by the gate, not by the health endpoint,
    with status 400 or 500 (400 "Invalid JSON payload" when the empty
    body is not JSON), so the check records "API returned" with that
    status and the run returns false. *)
Theorem doctor_health_check_fails_behind_the_gate
    (dw : Doctor.world) (w : world) (now : string)
    (results : list Doctor.DoctorResult) :
  Doctor.health dw = answers reason (server w now doctor_get) →
  let answer := server w now doctor_get in
  (∃ r,
     Doctor.checkAPIHealth dw results = (false, results ++ [r])
     ∧ Doctor.test r = "API Health"
     ∧ Doctor.outcome r = Doctor.fail
     ∧ Doctor.message r
       = "❌ API returned " +:+ pretty (status answer) +:+ ": "
           +:+ reason (status answer))
  ∧ (status answer = 400%Z ∨ status answer = 500%Z)
  ∧ ((∃ error, JSON_parse "" = inl error) →
     answer = Response 400 InvalidJson)
  ∧ fst (Doctor.run dw) = false.
Proof.
  intros Hhealth answer.
  destruct (server_answers_400_or_500 w now doctor_get eq_refl)
    as [Hgate Hstatus].
  fold answer in Hgate, Hstatus.
  assert (Hcheck : ∀ rs,
            Doctor.checkAPIHealth dw rs
            = (false,
               rs ++ [Doctor.Result "API Health" Doctor.fail
                        ("❌ API returned " +:+ pretty (status answer) +:+ ": "
                           +:+ reason (status answer))
                        JUndefined])).
  { intros rs. unfold Doctor.checkAPIHealth. rewrite Hhealth.
    unfold answers. fold answer.
    by rewrite (not_ok_400_or_500 _ _ _ Hstatus). }
  split; [|split; [|split]].
  - eexists. by rewrite Hcheck.
  - exact Hstatus.
  - intros [error Hparse]. rewrite Hgate.
    unfold validateTrackingRequest, validateTrackingRequest_try. simpl.
    by rewrite Hparse.
  - unfold Doctor.run. by rewrite Hcheck.
Qed.

Lemma flow_case_behind_the_gate (dw : Doctor.world) (w : world) (now : string) :
  (∀ body, snd (Doctor.flow dw body)
           = answers reason (server w now (doctor_post (JSON_stringify body)))) →
  ∀ flag results testEvent,
    ∃ r,
      Doctor.flow_case dw (flag, results) testEvent = (false, results ++ [r])
      ∧ Doctor.test r = "Event: " +:+ Doctor.event_name testEvent
      ∧ Doctor.outcome r = Doctor.fail.
Proof.
  intros Hflow flag results testEvent.
  unfold Doctor.flow_case, Doctor.addResult.
  specialize (Hflow (Doctor.flow_body testEvent)).
  destruct (Doctor.flow dw (Doctor.flow_body testEvent))
    as [[startTime endTime] answer].
  simpl in Hflow. subst answer. unfold answers.
  destruct (server_answers_400_or_500 w now
              (doctor_post (JSON_stringify (Doctor.flow_body testEvent)))
              eq_refl) as [_ Hstatus].
  rewrite (not_ok_400_or_500 _ _ _ Hstatus).
  eexists. split; [reflexivity|]. done.
Qed.

(** X26.  Behind the middleware the event-flow check fails: each of the
    three test events is answered by the gate with status 400 or 500, is
    recorded as a failure, and the check returns false. *)
Theorem doctor_flow_check_fails_behind_the_gate
    (dw : Doctor.world) (w : world) (now : string)
    (results : list Doctor.DoctorResult) :
  (∀ body, snd (Doctor.flow dw body)
           = answers reason (server w now (doctor_post (JSON_stringify body)))) →
  ∃ added,
    Doctor.testEventFlow dw results = (false, results ++ added)
    ∧ Doctor.test <$> added
      = ["Event: pageview"; "Event: user_signed_up"; "Event: feature_used"]
    ∧ Doctor.outcome <$> added = [Doctor.fail; Doctor.fail; Doctor.fail].
Proof.
  intros Hflow.
  pose proof (flow_case_behind_the_gate dw w now Hflow) as Hstep.
  unfold Doctor.testEventFlow, Doctor.testEvents. cbn [foldl].
  match goal with
  | |- context [Doctor.flow_case dw (true, results) ?te] =>
      destruct (Hstep true results te) as (r1 & -> & Ht1 & Ho1)
  end.
  match goal with
  | |- context [Doctor.flow_case dw (false, ?rs) ?te] =>
      destruct (Hstep false rs te) as (r2 & -> & Ht2 & Ho2)
  end.
  match goal with
  | |- context [Doctor.flow_case dw (false, ?rs) ?te] =>
      destruct (Hstep false rs te) as (r3 & -> & Ht3 & Ho3)
  end.
  simpl in Ht1, Ht2, Ht3.
  exists [r1; r2; r3]. split; [by rewrite <- !app_assoc|].
  simpl. by rewrite Ht1, Ht2, Ht3, Ho1, Ho2, Ho3.
Qed.

Lemma schema_case_behind_the_gate (dw : Doctor.world) (w : world) (now : string) :
  (∀ body, Doctor.validation dw body
           = answers reason (server w now (doctor_post (JSON_stringify body)))) →
  ∀ flag results testCase,
    ∃ r,
      Doctor.schema_case dw (flag, results) testCase
      = (flag && negb (Doctor.shouldPass testCase), results ++ [r])
      ∧ Doctor.test r = "Schema: " +:+ Doctor.name testCase
      ∧ Doctor.outcome r
        = if Doctor.shouldPass testCase then Doctor.fail else Doctor.pass.
Proof.
  intros Hvalidation flag results testCase.
  unfold Doctor.schema_case, Doctor.addResult.
  rewrite Hvalidation. unfold answers. simpl.
  destruct (server_answers_400_or_500 w now
              (doctor_post (JSON_stringify (Doctor.payload testCase)))
              eq_refl) as [_ Hstatus].
  rewrite (not_ok_400_or_500 _ _ _ Hstatus).
  destruct (Doctor.shouldPass testCase); simpl.
  - eexists. split; [by rewrite andb_false_r|]. done.
  - eexists. split; [by rewrite andb_true_r|]. done.
Qed.

(** X27.  Behind the middleware the schema check fails, at its first
    case: the valid sign-up is answered with an error status like the
    other three, so it is recorded as a failure where success was
    expected, the three cases that expect a failure are recorded as
    passed, and the check returns false. *)
Theorem doctor_schema_check_fails_behind_the_gate
    (dw : Doctor.world) (w : world) (now : string)
    (results : list Doctor.DoctorResult) :
  (∀ body, Doctor.validation dw body
           = answers reason (server w now (doctor_post (JSON_stringify body)))) →
  ∃ added,
    Doctor.checkSchemaValidation dw results = (false, results ++ added)
    ∧ Doctor.test <$> added
      = [ "Schema: Valid event"; "Schema: Invalid event name";
          "Schema: Missing required field"; "Schema: Invalid enum value" ]
    ∧ Doctor.outcome <$> added
      = [Doctor.fail; Doctor.pass; Doctor.pass; Doctor.pass].
Proof.
  intros Hvalidation.
  pose proof (schema_case_behind_the_gate dw w now Hvalidation) as Hstep.
  unfold Doctor.checkSchemaValidation, Doctor.testCases. cbn [foldl].
  match goal with
  | |- context [Doctor.schema_case dw (true, results) ?tc] =>
      destruct (Hstep true results tc) as (r1 & -> & Ht1 & Ho1)
  end.
  cbn [Doctor.shouldPass andb negb].
  match goal with
  | |- context [Doctor.schema_case dw (false, ?rs) ?tc] =>
      destruct (Hstep false rs tc) as (r2 & -> & Ht2 & Ho2)
  end.
  cbn [Doctor.shouldPass andb negb].
  match goal with
  | |- context [Doctor.schema_case dw (false, ?rs) ?tc] =>
      destruct (Hstep false rs tc) as (r3 & -> & Ht3 & Ho3)
  end.
  cbn [Doctor.shouldPass andb negb].
  match goal with
  | |- context [Doctor.schema_case dw (false, ?rs) ?tc] =>
      destruct (Hstep false rs tc) as (r4 & -> & Ht4 & Ho4)
  end.
  simpl in Ht1, Ht2, Ht3, Ht4, Ho1, Ho2, Ho3, Ho4.
  exists [r1; r2; r3; r4]. split; [by rewrite <- !app_assoc|].
  simpl. by rewrite Ht1, Ht2, Ht3, Ht4, Ho1, Ho2, Ho3, Ho4.
Qed.

End DoctorAgainstServer.

Lemma doctor_health_check_fails_behind_the_gate_witness :
  let dw := sample_doctor doctor_env health_answer in
  Doctor.health dw = answers reason_phrase (sample_server doctor_get)
  ∧ sample_server doctor_get = Response 400 InvalidJson
  ∧ fst (Doctor.run dw) = false.
Proof.
  intros dw.
  assert (H : Doctor.health dw = answers reason_phrase (sample_server doctor_get))
    by reflexivity.
  split; [exact H|].
  destruct (doctor_health_check_fails_behind_the_gate doctor_parse
              doctor_schemas doctor_validateEvent reason_phrase dw
              failing_world "2025-01-01T00:00:00.000Z" [] H)
    as (_ & _ & Hempty & Hrun).
  split; [|exact Hrun].
  apply Hempty. eexists. reflexivity.
Defined.

Lemma doctor_flow_check_fails_behind_the_gate_witness :
  let dw := sample_doctor doctor_env health_answer in
  (∀ body, snd (Doctor.flow dw body)
           = answers reason_phrase
               (sample_server (doctor_post (doctor_stringify body))))
  ∧ fst (Doctor.testEventFlow dw []) = false.
Proof.
  intros dw.
  assert (H : ∀ body, snd (Doctor.flow dw body)
                      = answers reason_phrase
                          (sample_server (doctor_post (doctor_stringify body))))
    by reflexivity.
  split; [exact H|].
  destruct (doctor_flow_check_fails_behind_the_gate doctor_parse
              doctor_stringify doctor_schemas doctor_validateEvent
              reason_phrase dw failing_world "2025-01-01T00:00:00.000Z" [] H)
    as (added & -> & _).
  reflexivity.
Defined.

Lemma doctor_schema_check_fails_behind_the_gate_witness :
  let dw := sample_doctor doctor_env health_answer in
  (∀ body, Doctor.validation dw body
           = answers reason_phrase
               (sample_server (doctor_post (doctor_stringify body))))
  ∧ fst (Doctor.checkSchemaValidation dw []) = false.
Proof.
  intros dw.
  assert (H : ∀ body, Doctor.validation dw body
                      = answers reason_phrase
                          (sample_server (doctor_post (doctor_stringify body))))
    by reflexivity.
  split; [exact H|].
  destruct (doctor_schema_check_fails_behind_the_gate doctor_parse
              doctor_stringify doctor_schemas doctor_validateEvent
              reason_phrase dw failing_world "2025-01-01T00:00:00.000Z" [] H)
    as (added & -> & _).
  reflexivity.
Defined.
